(** * pdf-ocr: the extraction and normalisation pipeline of [gemini-pdf_genai.py]

    A shallow embedding of the Python script that sends scanned tax documents
    to a vision model, recovers a JSON payload from the answer, repairs the
    records against the field list and appends one spreadsheet row per record.

    Python values are modelled as they exist at run time: a [str] is a
    sequence of Unicode code points, a [dict] keeps its keys in insertion
    order, an exception is a value that leaves a block early.  The remote
    services (file upload, model call, file deletion, the two worksheets, the
    clock) are inputs of the model: every call's result is read from a script
    that the caller supplies.  Interpreter resource limits (recursion depth,
    the digit limit of [int]) are outside the model. *)

From Stdlib Require Import Ascii String Bool Arith NArith ZArith Lia DecimalString List.
Import ListNotations.
Set Warnings "-register-all".
Open Scope list_scope.

(** ** Python strings *)

(** A [str] is a sequence of code points. *)
Definition codepoint := N.
Definition pystr := list codepoint.

(** The code point of an ASCII character. *)
Definition ch (a : ascii) : codepoint := N_of_ascii a.
Arguments ch a%_char.

(** Source literals are UTF-8; [utf8] decodes the bytes of a literal into
    code points (only well-formed input is ever given to it). *)
Fixpoint utf8 (bs : list N) : pystr :=
  match bs with
  | [] => []
  | b0 :: t0 =>
    if (b0 <? 128)%N then b0 :: utf8 t0
    else if (b0 <? 224)%N then
      match t0 with
      | b1 :: t1 => ((b0 - 192) * 64 + (b1 - 128))%N :: utf8 t1
      | _ => []
      end
    else if (b0 <? 240)%N then
      match t0 with
      | b1 :: b2 :: t2 =>
        ((b0 - 224) * 4096 + (b1 - 128) * 64 + (b2 - 128))%N :: utf8 t2
      | _ => []
      end
    else
      match t0 with
      | b1 :: b2 :: b3 :: t3 =>
        ((b0 - 240) * 262144 + (b1 - 128) * 4096 + (b2 - 128) * 64 + (b3 - 128))%N
          :: utf8 t3
      | _ => []
      end
  end.

Definition py (s : string) : pystr :=
  utf8 (map N_of_ascii (list_ascii_of_string s)).
Arguments py s%_string.

(** JSON samples are written with ['] for the double quote. *)
Definition js (s : string) : pystr :=
  map (fun c => if (c =? ch "'")%N then 34%N else c) (py s).
Arguments js s%_string.

Fixpoint str_eqb (a b : pystr) : bool :=
  match a, b with
  | [], [] => true
  | x :: a', y :: b' => (x =? y)%N && str_eqb a' b'
  | _, _ => false
  end.

(** [x in xs] for a list of strings. *)
Definition str_in (x : pystr) (xs : list pystr) : bool := existsb (str_eqb x) xs.

(** [Py_UNICODE_ISSPACE]: what [str.strip()], [str.isspace()] and the regular
    expression class [\s] take for white space. *)
Definition unicode_spaces : list codepoint :=
  [0x9; 0xA; 0xB; 0xC; 0xD; 0x1C; 0x1D; 0x1E; 0x1F; 0x20; 0x85; 0xA0; 0x1680;
   0x2000; 0x2001; 0x2002; 0x2003; 0x2004; 0x2005; 0x2006; 0x2007; 0x2008;
   0x2009; 0x200A; 0x2028; 0x2029; 0x202F; 0x205F; 0x3000]%N.

Definition is_space (c : codepoint) : bool := existsb (N.eqb c) unicode_spaces.

(** The regular expression class [\d] on a [str] pattern: the decimal digits
    of the Unicode database (category Nd), which come in runs of ten.  The list
    holds the zero of every run (Unicode 14.0, the database of CPython 3.11). *)
Definition unicode_digit_zeros : list codepoint :=
  [0x30; 0x660; 0x6F0; 0x7C0; 0x966; 0x9E6; 0xA66; 0xAE6; 0xB66; 0xBE6; 0xC66;
   0xCE6; 0xD66; 0xDE6; 0xE50; 0xED0; 0xF20; 0x1040; 0x1090; 0x17E0; 0x1810;
   0x1946; 0x19D0; 0x1A80; 0x1A90; 0x1B50; 0x1BB0; 0x1C40; 0x1C50; 0xA620;
   0xA8D0; 0xA900; 0xA9D0; 0xA9F0; 0xAA50; 0xABF0; 0xFF10; 0x104A0; 0x10D30;
   0x11066; 0x110F0; 0x11136; 0x111D0; 0x112F0; 0x11450; 0x114D0; 0x11650;
   0x116C0; 0x11730; 0x118E0; 0x11950; 0x11C50; 0x11D50; 0x11DA0; 0x16A60;
   0x16AC0; 0x16B50; 0x1D7CE; 0x1D7D8; 0x1D7E2; 0x1D7EC; 0x1D7F6; 0x1E140;
   0x1E2F0; 0x1E950; 0x1FBF0]%N.

Definition is_digit (c : codepoint) : bool :=
  existsb (fun z => (z <=? c)%N && (c <? z + 10)%N) unicode_digit_zeros.

(** [s.lstrip()], [s.strip()]. *)
Fixpoint lstrip (s : pystr) : pystr :=
  match s with
  | c :: s' => if is_space c then lstrip s' else s
  | [] => []
  end.

Definition strip (s : pystr) : pystr := rev (lstrip (rev (lstrip s))).

(** [s.replace(a, b)] for one-character [a] and [b]. *)
Definition replace_char (a b : codepoint) (s : pystr) : pystr :=
  map (fun c => if (c =? a)%N then b else c) s.
Arguments replace_char (a b)%_N s.

(** ** Python values

    What [json.loads] can build.  A float is kept as the text it was read
    from (the value is the binary64 number nearest to it); no code path
    looks inside one.  A dict keeps its items in insertion order. *)
Inductive pyval : Type :=
| PNone
| PBool (b : bool)
| PInt (z : Z)
| PFloat (lexeme : pystr)
| PStr (s : pystr)
| PList (l : list pyval)
| PDict (d : list (pystr * pyval)).

Definition pydict := list (pystr * pyval).

(** [d.get(k)] *)
Fixpoint dict_get (k : pystr) (d : pydict) : option pyval :=
  match d with
  | [] => None
  | (k', v) :: d' => if str_eqb k k' then Some v else dict_get k d'
  end.

(** [k in d] *)
Definition dict_mem (k : pystr) (d : pydict) : bool :=
  match dict_get k d with Some _ => true | None => false end.

(** [d[k] = v]: an existing key keeps its place, a new one goes last. *)
Fixpoint dict_set (k : pystr) (v : pyval) (d : pydict) : pydict :=
  match d with
  | [] => [(k, v)]
  | (k', v') :: d' =>
    if str_eqb k k' then (k', v) :: d' else (k', v') :: dict_set k v d'
  end.

(** ** Configuration: the field list and the currency fields *)

Definition EXTRACTION_FIELDS : list pystr :=
  [py "성명"; py "생년월일"; py "안내유형"; py "기장의무"; py "추계시 적용경비율";
   py "소득종류"; py "이자"; py "배당"; py "근로-단일"; py "근로-복수";
   py "연금"; py "기타"; py "종교인 기타소득유무"; py "중간예납세액"; py "원천징수세액";
   py "국민연금보험료"; py "개인연금저축"; py "소기업소상공인공제부금 (노란우산공제)";
   py "퇴직연금세액공제"; py "연금계좌세액공제"; py "사업자 등록번호"; py "상호";
   py "수입금액 구분코드";
   py "업종 코드"; py "사업 형태"; py "기장 의무"; py "경비율";
   py "수입금액"; py "일반"; py "자가"; py "일반(기본)"; py "자가(초과)"].

Definition currency_fields : list pystr :=
  [py "중간예납세액"; py "원천징수세액"; py "국민연금보험료"; py "개인연금저축";
   py "소기업소상공인공제부금 (노란우산공제)"; py "퇴직연금세액공제";
   py "연금계좌세액공제"; py "수입금액"].

(** The sentinel for a field that the document does not have. *)
Definition NA : pystr := py "N/A".

(** ** [clean_currency] *)

(** [re.sub] of the class [[^\d]] by the empty string: every character
    outside [\d] is removed. *)
Definition strip_non_digits (value : pystr) : pystr := filter is_digit value.

Definition clean_currency (value : pyval) : pystr :=
  match value with
  | PStr value =>
    if str_in (strip value) [[]; py "없음"; py "N/A"] then py "0"
    else
      let cleaned := strip_non_digits value in
      match cleaned with
      | [] => py "0"
      | _ => cleaned
      end
  | _ => py "0"
  end.

(** ** Regular expressions

    The fragment of [re] that the four patterns of [safe_extract_json] use:
    literal characters, a greedy or lazy star over a character class, and one
    capturing group.  [run] is the backtracking matcher: it returns the first
    way of matching that the engine's search order finds at a given position. *)
Inductive item : Type :=
| Chr (c : codepoint)                  (* a literal, such as [\[] *)
| Star (cls : codepoint -> bool)       (* [cls*], greedy *)
| StarLazy (cls : codepoint -> bool)   (* [cls*?], lazy *)
| GroupOpen                            (* [(] *)
| GroupClose.                          (* [)] *)

Definition pattern := list item.

(** [[\s\S]]: any character, line breaks included. *)
Definition any_char (c : codepoint) : bool := is_space c || negb (is_space c).
Arguments any_char : simpl never.

(** Where the group opened and where it closed, as the text still to read. *)
Definition captures := (option pystr * option pystr)%type.

Fixpoint run (p : pattern) : pystr -> captures -> option (captures * pystr) :=
  match p with
  | [] => fun s g => Some (g, s)
  | Chr c :: p' =>
    fun s g =>
      match s with
      | x :: s' => if (x =? c)%N then run p' s' g else None
      | [] => None
      end
  | Star cls :: p' =>
    fix greedy (s : pystr) (g : captures) {struct s} :=
      match s with
      | x :: s' =>
        if cls x then
          match greedy s' g with
          | Some r => Some r
          | None => run p' s g
          end
        else run p' s g
      | [] => run p' s g
      end
  | StarLazy cls :: p' =>
    fix lazy (s : pystr) (g : captures) {struct s} :=
      match run p' s g with
      | Some r => Some r
      | None =>
        match s with
        | x :: s' => if cls x then lazy s' g else None
        | [] => None
        end
      end
  | GroupOpen :: p' => fun s g => run p' s (Some s, snd g)
  | GroupClose :: p' => fun s g => run p' s (fst g, Some s)
  end.

(** The text between two positions, each given as the text that follows it. *)
Definition span (from to : pystr) : pystr :=
  firstn (length from - length to) from.

(** What [findall] reports for one match: the group when the pattern has one,
    the whole match otherwise. *)
Definition reported (s : pystr) (g : captures) (rest : pystr) : pystr :=
  match g with
  | (Some from, Some to) => span from to
  | _ => span s rest
  end.

(** [re.findall(p, text)]: the matches from left to right, none overlapping.
    [skip] counts the characters of the last match still to step over.  (An
    empty match moves the search on by one character; the patterns below all
    start with a literal, so they have none.) *)
Fixpoint findall_from (p : pattern) (skip : nat) (s : pystr) : list pystr :=
  match skip with
  | S k =>
    match s with
    | [] => []
    | _ :: s' => findall_from p k s'
    end
  | O =>
    match run p s (None, None) with
    | Some (g, rest) =>
      reported s g rest ::
        match s with
        | [] => []
        | _ :: s' => findall_from p (length s - length rest - 1) s'
        end
    | None =>
      match s with
      | [] => []
      | _ :: s' => findall_from p 0 s'
      end
    end
  end.

Definition findall (p : pattern) (text : pystr) : list pystr := findall_from p 0 text.

(** A run of literals. *)
Definition lit (s : string) : pattern := map Chr (py s).
Arguments lit s%_string.

(** The four patterns, in the order of the source list. *)
Definition pat_array : pattern :=                 (* \[[\s\S]*?\] *)
  [Chr (ch "["); StarLazy any_char; Chr (ch "]")].
Definition pat_json_fence : pattern :=            (* ```json\s*([\s\S]*?)\s*``` *)
  lit "```json" ++ [Star is_space; GroupOpen; StarLazy any_char; GroupClose; Star is_space]
    ++ lit "```".
Definition pat_fence : pattern :=                 (* ```\s*([\s\S]*?)\s*``` *)
  lit "```" ++ [Star is_space; GroupOpen; StarLazy any_char; GroupClose; Star is_space]
    ++ lit "```".
Definition pat_object : pattern :=                (* \{[\s\S]*?\} *)
  [Chr (ch "{"); StarLazy any_char; Chr (ch "}")].

Definition patterns : list pattern := [pat_array; pat_json_fence; pat_fence; pat_object].

(** ['```' in pattern], on the pattern's text: three back quotes in a row. *)
Fixpoint has_fence (p : pattern) : bool :=
  match p with
  | Chr a :: ((Chr b :: Chr c :: _) as p') =>
    ((a =? ch "`")%N && (b =? ch "`")%N && (c =? ch "`")%N) || has_fence p'
  | _ :: p' => has_fence p'
  | [] => false
  end.

(** ** [json.loads]

    The decoder of the standard library, as its scanner reads a [str]: white
    space is blank, tab, line feed and carriage return; strings are strict (no
    raw control character); [NaN], [Infinity] and [-Infinity] are accepted; a
    repeated key keeps its first place and its last value.  Every way of
    failing is one [JSONDecodeError]. *)
Inductive scanned (A : Type) : Type :=
| Parsed (a : A) (rest : pystr)
| Invalid        (* JSONDecodeError *)
| Exhausted.     (* the model's recursion budget ran out; see [scan_once_total] *)
Arguments Parsed {A} a rest.
Arguments Invalid {A}.
Arguments Exhausted {A}.

Definition json_space (c : codepoint) : bool :=
  ((c =? 32) || (c =? 9) || (c =? 10) || (c =? 13))%N.

Fixpoint skip_ws (s : pystr) : pystr :=
  match s with
  | c :: s' => if json_space c then skip_ws s' else s
  | [] => []
  end.

Definition ascii_digit (c : codepoint) : bool := ((48 <=? c) && (c <=? 57))%N.

Definition hex_value (c : codepoint) : option N :=
  if ascii_digit c then Some (c - 48)%N
  else if ((97 <=? c) && (c <=? 102))%N then Some (c - 87)%N
  else if ((65 <=? c) && (c <=? 70))%N then Some (c - 55)%N
  else None.

Definition hex4 (a b c d : codepoint) : option N :=
  match hex_value a, hex_value b, hex_value c, hex_value d with
  | Some x, Some y, Some z, Some w => Some (((x * 16 + y) * 16 + z) * 16 + w)%N
  | _, _, _, _ => None
  end.

Definition high_surrogate (u : N) : bool := ((0xD800 <=? u) && (u <=? 0xDBFF))%N.
Definition low_surrogate (u : N) : bool := ((0xDC00 <=? u) && (u <=? 0xDFFF))%N.
Definition join_surrogates (hi lo : N) : N :=
  (0x10000 + (hi - 0xD800) * 0x400 + (lo - 0xDC00))%N.

(** The character a one-letter escape stands for. *)
Definition unescape (e : codepoint) : option codepoint :=
  if (e =? 34)%N then Some 34%N
  else if (e =? ch "\")%N then Some (ch "\")
  else if (e =? ch "/")%N then Some (ch "/")
  else if (e =? ch "b")%N then Some 8%N
  else if (e =? ch "f")%N then Some 12%N
  else if (e =? ch "n")%N then Some 10%N
  else if (e =? ch "r")%N then Some 13%N
  else if (e =? ch "t")%N then Some 9%N
  else None.

Definition push (c : codepoint) (r : option (pystr * pystr)) : option (pystr * pystr) :=
  match r with
  | Some (x, rest) => Some (c :: x, rest)
  | None => None
  end.

(** The body of a string, read after its opening quote: the decoded text and
    what follows the closing quote. *)
Fixpoint scanstring (s : pystr) : option (pystr * pystr) :=
  match s with
  | [] => None
  | c :: t =>
    if (c =? 34)%N then Some ([], t)
    else if (c =? 92)%N then
      match t with
      | [] => None
      | e :: t1 =>
        if (e =? ch "u")%N then
          match t1 with
          | h1 :: h2 :: h3 :: h4 :: t2 =>
            match hex4 h1 h2 h3 h4 with
            | None => None
            | Some u =>
              if high_surrogate u then
                match t2 with
                | b :: e2 :: k1 :: k2 :: k3 :: k4 :: t3 =>
                  if ((b =? 92) && (e2 =? ch "u"))%N then
                    match hex4 k1 k2 k3 k4 with
                    | None => None
                    | Some u2 =>
                      if low_surrogate u2 then push (join_surrogates u u2) (scanstring t3)
                      else push u (scanstring t2)
                    end
                  else push u (scanstring t2)
                | _ => push u (scanstring t2)
                end
              else push u (scanstring t2)
            end
          | _ => None
          end
        else
          match unescape e with
          | Some x => push x (scanstring t1)
          | None => None
          end
      end
    else if (c <? 32)%N then None
    else push c (scanstring t)
  end.

(** The longest run of ASCII digits at the head of [s], and the rest. *)
Fixpoint take_digits (s : pystr) : pystr * pystr :=
  match s with
  | c :: s' =>
    if ascii_digit c then let (ds, r) := take_digits s' in (c :: ds, r) else ([], s)
  | [] => ([], [])
  end.

Definition decimal_value (ds : pystr) : Z :=
  fold_left (fun acc c => (acc * 10 + Z.of_N (c - 48))%Z) ds 0%Z.

(** A number: an optional minus sign, then [0] or a digit string that does not
    start with [0], then an optional fraction (a dot and digits), then an
    optional exponent ([e] or [E], an optional sign, digits).  It is an [int]
    when only the integer part is there, a [float] otherwise. *)
Definition match_number (s : pystr) : option (pyval * pystr) :=
  let (sign, s1) :=
    match s with
    | c :: t => if (c =? ch "-")%N then ([c], t) else ([], s)
    | [] => ([], s)
    end in
  let integer :=
    match s1 with
    | c :: t =>
      if ((49 <=? c) && (c <=? 57))%N then
        let (ds, r) := take_digits t in Some (c :: ds, r)
      else if (c =? 48)%N then Some ([c], t)
      else None
    | [] => None
    end in
  match integer with
  | None => None
  | Some (ip, r) =>
    let (frac, r1) :=
      match r with
      | dot :: d :: r' =>
        if ((dot =? ch ".")%N && ascii_digit d)%bool then
          let (ds, r2) := take_digits r' in (dot :: d :: ds, r2)
        else ([], r)
      | _ => ([], r)
      end in
    let (expo, r2) :=
      match r1 with
      | e :: r' =>
        if ((e =? ch "e") || (e =? ch "E"))%N then
          let (sg, r'') :=
            match r' with
            | c :: t => if ((c =? ch "-") || (c =? ch "+"))%N then ([c], t) else ([], r')
            | [] => ([], r')
            end in
          match take_digits r'' with
          | ([], _) => ([], r1)
          | (ds, r3) => (e :: sg ++ ds, r3)
          end
        else ([], r1)
      | [] => ([], r1)
      end in
    match frac, expo with
    | [], [] =>
      Some (PInt (match sign with [] => decimal_value ip | _ => - decimal_value ip end)%Z, r2)
    | _, _ => Some (PFloat (sign ++ ip ++ frac ++ expo), r2)
    end
  end.

(** [s] starts with [w]: what follows [w]. *)
Fixpoint after_prefix (w s : pystr) : option pystr :=
  match w, s with
  | [], _ => Some s
  | a :: w', b :: s' => if (a =? b)%N then after_prefix w' s' else None
  | _ :: _, [] => None
  end.

(** The literal names and the numbers. *)
Definition scan_atom (s : pystr) : scanned pyval :=
  match after_prefix (py "null") s with
  | Some r => Parsed PNone r
  | None =>
  match after_prefix (py "true") s with
  | Some r => Parsed (PBool true) r
  | None =>
  match after_prefix (py "false") s with
  | Some r => Parsed (PBool false) r
  | None =>
  match after_prefix (py "NaN") s with
  | Some r => Parsed (PFloat (py "NaN")) r
  | None =>
  match after_prefix (py "Infinity") s with
  | Some r => Parsed (PFloat (py "Infinity")) r
  | None =>
  match after_prefix (py "-Infinity") s with
  | Some r => Parsed (PFloat (py "-Infinity")) r
  | None =>
  match match_number s with
  | Some (v, r) => Parsed v r
  | None => Invalid
  end end end end end end end.

(** One JSON value at the head of [s]; [parse_elements] and [parse_members]
    read an array and an object after the first item is known to be there. *)
Fixpoint scan_once (fuel : nat) (s : pystr) {struct fuel} : scanned pyval :=
  match fuel with
  | O => Exhausted
  | S fuel' =>
    match s with
    | [] => Invalid
    | c :: t =>
      if (c =? 34)%N then
        match scanstring t with
        | Some (x, rest) => Parsed (PStr x) rest
        | None => Invalid
        end
      else if (c =? ch "{")%N then
        match skip_ws t with
        | c' :: t' =>
          if (c' =? ch "}")%N then Parsed (PDict []) t' else parse_members fuel' (c' :: t') []
        | [] => Invalid
        end
      else if (c =? ch "[")%N then
        match skip_ws t with
        | c' :: t' =>
          if (c' =? ch "]")%N then Parsed (PList []) t' else parse_elements fuel' (c' :: t') []
        | [] => Invalid
        end
      else scan_atom s
    end
  end
with parse_elements (fuel : nat) (s : pystr) (acc : list pyval) {struct fuel}
  : scanned pyval :=
  match fuel with
  | O => Exhausted
  | S fuel' =>
    match scan_once fuel' s with
    | Parsed v rest =>
      match skip_ws rest with
      | c :: t =>
        if (c =? ch "]")%N then Parsed (PList (acc ++ [v])) t
        else if (c =? ch ",")%N then parse_elements fuel' (skip_ws t) (acc ++ [v])
        else Invalid
      | [] => Invalid
      end
    | Invalid => Invalid
    | Exhausted => Exhausted
    end
  end
with parse_members (fuel : nat) (s : pystr) (acc : pydict) {struct fuel}
  : scanned pyval :=
  match fuel with
  | O => Exhausted
  | S fuel' =>
    match s with
    | q :: t =>
      if (q =? 34)%N then
        match scanstring t with
        | Some (key, rest) =>
          match skip_ws rest with
          | colon :: t1 =>
            if (colon =? ch ":")%N then
              match scan_once fuel' (skip_ws t1) with
              | Parsed v rest1 =>
                match skip_ws rest1 with
                | c :: t2 =>
                  if (c =? ch "}")%N then Parsed (PDict (dict_set key v acc)) t2
                  else if (c =? ch ",")%N then
                    parse_members fuel' (skip_ws t2) (dict_set key v acc)
                  else Invalid
                | [] => Invalid
                end
              | Invalid => Invalid
              | Exhausted => Exhausted
              end
            else Invalid
          | [] => Invalid
          end
        | None => Invalid
        end
      else Invalid
    | [] => Invalid
    end
  end.

(** [json.loads(s)]: one value, white space around it, nothing else.
    [None] is the [JSONDecodeError]. *)
Definition json_loads (s : pystr) : option pyval :=
  match scan_once (S (2 * length s)) (skip_ws s) with
  | Parsed v rest =>
    match skip_ws rest with
    | [] => Some v
    | _ :: _ => None
    end
  | _ => None
  end.

(** ** [safe_extract_json] *)

(** The body of the [try]: the fenced patterns have their match stripped
    before it is decoded. *)
Definition decode_match (p : pattern) (m : pystr) : option pyval :=
  if has_fence p then json_loads (strip m) else json_loads m.

(** What a decoded value gives back: a dict is wrapped into a list, a list is
    taken as it is, anything else gives nothing. *)
Definition as_records (v : option pyval) : option (list pyval) :=
  match v with
  | Some (PDict d) => Some [PDict d]
  | Some (PList l) => Some l
  | _ => None
  end.

(** The inner loop, [for match in matches]: a match that does not decode, or
    decodes to something that is neither a dict nor a list, is passed over. *)
Fixpoint try_matches (p : pattern) (matches : list pystr) : option (list pyval) :=
  match matches with
  | [] => None
  | m :: rest =>
    match as_records (decode_match p m) with
    | Some json_data => Some json_data
    | None => try_matches p rest
    end
  end.

(** The outer loop, [for pattern in patterns]. *)
Fixpoint try_patterns (ps : list pattern) (text : pystr) : option (list pyval) :=
  match ps with
  | [] => None
  | p :: ps' =>
    match try_matches p (findall p text) with
    | Some json_data => Some json_data
    | None => try_patterns ps' text
    end
  end.

(** [None] is Python's [None]: nothing could be extracted. *)
Definition safe_extract_json (text : pystr) : option (list pyval) :=
  try_patterns patterns text.
Arguments safe_extract_json : simpl never.

(** ** [extract_data_with_gemini]

    The three remote calls of an attempt are answered by a script: what
    [genai.upload_file] returns or raises, what the model call (up to
    [response.text]) returns or raises, and whether [genai.delete_file]
    raises.  The prompt only travels to the model and is left out. *)
Inductive exn : Type :=
| FileNotFoundError (msg : pystr)
| ValueError (msg : pystr)
| ApiError (msg : pystr).        (* what a remote call raises *)

(** [str(e)] *)
Definition exn_str (e : exn) : pystr :=
  match e with
  | FileNotFoundError msg => msg
  | ValueError msg => msg
  | ApiError msg => msg
  end.

Inductive outcome (A : Type) : Type :=
| Return (a : A)
| Raise (e : exn).
Arguments Return {A} a.
Arguments Raise {A} e.

Definition handle := nat.

Record attempt_io : Type := {
  upload_file : outcome handle;
  generate_content : outcome pystr;
  delete_file : outcome unit
}.

(** The remote calls that were made, in order. *)
Inductive call : Type :=
| UploadFile (attempt : nat)
| GenerateContent (attempt : nat) (file : handle)
| DeleteFile (attempt : nat) (file : handle).

Definition max_retries : nat := 3.

(** How one pass of the loop body ends. *)
Inductive flow : Type :=
| Next                   (* [continue], or an exception that was printed and dropped *)
| Returns (v : pyval)
| Raises (e : exn).

Definition extraction_failed (text : pystr) : exn :=
  ValueError (py "모든 시도에서 JSON 추출 실패. 원본 응답:" ++ [10%N] ++ text).
Arguments extraction_failed : simpl never.

(** The [try] suite.  It gives the new value of [uploaded_file], the calls
    made and the way the suite ends. *)
Definition try_suite (attempt : nat) (io : attempt_io) (uploaded_file : option handle)
  : option handle * list call * flow :=
  match upload_file io with
  | Raise e => (uploaded_file, [UploadFile attempt], Raises e)
  | Return file =>
    match generate_content io with
    | Raise e => (Some file, [UploadFile attempt; GenerateContent attempt file], Raises e)
    | Return text =>
      (Some file, [UploadFile attempt; GenerateContent attempt file],
       match safe_extract_json text with
       | None =>
         if attempt <? max_retries - 1 then Next else Raises (extraction_failed text)
       | Some extracted_data => Returns (PList extracted_data)
       end)
    end
  end.

(** [except Exception as e]: raised again on the last attempt only. *)
Definition except_clause (attempt : nat) (f : flow) : flow :=
  match f with
  | Raises e => if attempt =? max_retries - 1 then Raises e else Next
  | _ => f
  end.

(** [finally]: the uploaded file is deleted when there is one; a failure of
    the deletion is printed and dropped, and leaves [uploaded_file] set. *)
Definition finally_clause (attempt : nat) (io : attempt_io) (uploaded_file : option handle)
  : option handle * list call :=
  match uploaded_file with
  | Some file =>
    match delete_file io with
    | Return _ => (None, [DeleteFile attempt file])
    | Raise _ => (Some file, [DeleteFile attempt file])
    end
  | None => (None, [])
  end.

(** [for attempt in range(max_retries)].  A loop that runs out returns
    Python's [None]. *)
Fixpoint attempts_loop (io : nat -> attempt_io) (attempts : list nat)
  (uploaded_file : option handle) : list call * outcome pyval :=
  match attempts with
  | [] => ([], Return PNone)
  | attempt :: rest =>
    let '(uploaded_file, calls, f) := try_suite attempt (io attempt) uploaded_file in
    let '(uploaded_file, released) := finally_clause attempt (io attempt) uploaded_file in
    match except_clause attempt f with
    | Returns v => (calls ++ released, Return v)
    | Raises e => (calls ++ released, Raise e)
    | Next =>
      let '(later, r) := attempts_loop io rest uploaded_file in
      (calls ++ released ++ later, r)
    end
  end.

Definition extract_data_with_gemini (file_exists : bool) (file_path : pystr)
  (io : nat -> attempt_io) : list call * outcome pyval :=
  if file_exists then attempts_loop io (seq 0 max_retries) None
  else ([], Raise (FileNotFoundError
                     (py "오류: PDF 파일을 찾을 수 없습니다. 경로: " ++ file_path))).

(** ** [validate_and_fix_data] *)

(** The loop over [EXTRACTION_FIELDS] that adds what is missing. *)
Definition fill_missing (fields : list pystr) (item : pydict) : pydict :=
  fold_left
    (fun item field => if dict_mem field item then item else dict_set field (PStr NA) item)
    fields item.
Arguments fill_missing : simpl never.

Fixpoint validate_items (data_list : list pyval) : list pydict :=
  match data_list with
  | [] => []
  | PDict item :: rest => fill_missing EXTRACTION_FIELDS item :: validate_items rest
  | _ :: rest => validate_items rest
  end.

Definition validate_and_fix_data (data_list : pyval) : list pydict :=
  match data_list with
  | PList l => validate_items l
  | PDict d => [d]
  | _ => []
  end.

(** ** The batch loop of [main] *)

Inductive cell : Type :=
| CStr (s : pystr)
| CInt (z : Z).

(** What the outside world does for one file of the folder. *)
Record document : Type := {
  pdf_file : pystr;
  file_exists : bool;                 (* [os.path.exists] *)
  gemini : nat -> attempt_io;         (* the remote calls of each attempt *)
  append_rows : outcome unit;         (* [worksheet.append_rows] *)
  log_no_data : outcome unit;         (* [log_worksheet.append_row], no valid data *)
  no_data_time : pystr;               (* the clock read for that row *)
  log_error : outcome unit;           (* [log_worksheet.append_row], in the handler *)
  error_time : pystr                  (* the clock read for that row *)
}.

(** The two worksheets and the two counters.  A write that raises leaves the
    sheet as it was. *)
Record sheets : Type := {
  worksheet : list (list cell);
  log_worksheet : list (list pystr);
  total_rows_added : nat;
  error_count : nat
}.

Definition log_row (st : sheets) (row : list pystr) : sheets :=
  {| worksheet := worksheet st;
     log_worksheet := log_worksheet st ++ [row];
     total_rows_added := total_rows_added st;
     error_count := error_count st |}.

Definition add_rows (st : sheets) (rows : list (list cell)) : sheets :=
  {| worksheet := worksheet st ++ rows;
     log_worksheet := log_worksheet st;
     total_rows_added := total_rows_added st + length rows;
     error_count := error_count st |}.

Definition count_error (st : sheets) : sheets :=
  {| worksheet := worksheet st;
     log_worksheet := log_worksheet st;
     total_rows_added := total_rows_added st;
     error_count := error_count st + 1 |}.

Definition NO_VALID_DATA : pystr := py "유효한 데이터 없음".

(** The figures of the closing report. *)
Record summary : Type := {
  files : nat;
  successes : Z;
  errors : nat;
  rows_added : nat
}.

Section Driver.

(** [str(v)] for a float, a list or a dict: the interpreter's number
    formatting and [repr], which the script uses and does not define. *)
Variable str_other : pyval -> pystr.

(** [str(v)] *)
Definition py_str (v : pyval) : pystr :=
  match v with
  | PStr s => s
  | PNone => py "None"
  | PBool true => py "True"
  | PBool false => py "False"
  | PInt z => py (NilZero.string_of_int (Z.to_int z))
  | _ => str_other v
  end.

(** The cell of one field: the body of [for field in EXTRACTION_FIELDS]. *)
Definition field_cell (extracted_data : pydict) (field : pystr) : pystr :=
  let value :=
    match dict_get field extracted_data with
    | Some v => v
    | None => PStr NA
    end in
  let value :=
    match value with
    | PStr s => PStr (replace_char 13 32 (replace_char 10 32 s))
    | _ => value
    end in
  let value :=
    if str_in field currency_fields then PStr (clean_currency (PStr (py_str value)))
    else value in
  py_str value.

Definition data_row (pdf_file : pystr) (i : nat) (extracted_data : pydict) : list cell :=
  let file_name_to_log := if i =? 0 then pdf_file else [] in
  let row_number := (Z.of_nat i + 1)%Z in
  [CStr file_name_to_log; CInt row_number]
    ++ map (fun field => CStr (field_cell extracted_data field)) EXTRACTION_FIELDS.

(** [for i, extracted_data in enumerate(validated_data)], from index [i]. *)
Fixpoint rows_from (pdf_file : pystr) (i : nat) (validated_data : list pydict)
  : list (list cell) :=
  match validated_data with
  | [] => []
  | extracted_data :: rest =>
    data_row pdf_file i extracted_data :: rows_from pdf_file (S i) rest
  end.

(** The [try] suite of the loop over the files: the sheets afterwards, and
    the exception when one was raised in it. *)
Definition document_suite (d : document) (st : sheets) : sheets * option exn :=
  let full_path := py "./pdfs/" ++ pdf_file d in
  match snd (extract_data_with_gemini (file_exists d) full_path (gemini d)) with
  | Raise e => (st, Some e)
  | Return extracted_data_list =>
    let validated_data := validate_and_fix_data extracted_data_list in
    match validated_data with
    | [] =>
      match log_no_data d with
      | Raise e => (st, Some e)
      | Return _ => (log_row st [pdf_file d; NO_VALID_DATA; no_data_time d], None)
      end
    | _ :: _ =>
      let rows_to_append := rows_from (pdf_file d) 0 validated_data in
      match rows_to_append with
      | [] => (st, None)
      | _ :: _ =>
        match append_rows d with
        | Raise e => (st, Some e)
        | Return _ => (add_rows st rows_to_append, None)
        end
      end
    end
  end.

(** One pass of the loop with its handler.  An exception raised by the
    handler itself is not caught by anything: it leaves the loop. *)
Definition process_document (d : document) (st : sheets) : sheets * option exn :=
  match document_suite d st with
  | (st, None) => (st, None)
  | (st, Some e) =>
    match log_error d with
    | Raise e' => (st, Some e')
    | Return _ =>
      (count_error (log_row st [pdf_file d; exn_str e; error_time d]), None)
    end
  end.

Fixpoint main_loop (pdf_files : list document) (st : sheets) : sheets * option exn :=
  match pdf_files with
  | [] => (st, None)
  | d :: rest =>
    match process_document d st with
    | (st, None) => main_loop rest st
    | (st, Some e) => (st, Some e)
    end
  end.

(** [main] from the point where the sheets are open and the files listed:
    the sheets at the end, and the closing report unless an exception ended
    the run. *)
Definition main (sheet log : list (list pystr)) (pdf_files : list document)
  : sheets * outcome summary :=
  let st0 := {| worksheet := map (map CStr) sheet; log_worksheet := log;
                total_rows_added := 0; error_count := 0 |} in
  match main_loop pdf_files st0 with
  | (st, Some e) => (st, Raise e)
  | (st, None) =>
    (st, Return {| files := length pdf_files;
                   successes := (Z.of_nat (length pdf_files) - Z.of_nat (error_count st))%Z;
                   errors := error_count st;
                   rows_added := total_rows_added st |})
  end.

End Driver.

(** ** Vocabulary of the statements *)

(** The elements of a list that are dicts, in order. *)
Definition dicts_of (l : list pyval) : list pydict :=
  flat_map (fun v => match v with PDict d => [d] | _ => [] end) l.

(** The fields that a record does not have, in the order of the field list. *)
Definition missing_fields (fields : list pystr) (item : pydict) : list pystr :=
  filter (fun f => negb (dict_mem f item)) fields.

Fixpoint distinct (l : list pystr) : bool :=
  match l with
  | [] => true
  | x :: l' => negb (str_in x l') && distinct l'
  end.

(** How many times [genai.delete_file] was called. *)
Definition releases (calls : list call) : nat :=
  length (filter (fun c => match c with DeleteFile _ _ => true | _ => false end) calls).

(** What the model call of an attempt yields: the records, or nothing when
    the call raises or its answer holds no JSON. *)
Definition attempt_records (io : attempt_io) : option (list pyval) :=
  match generate_content io with
  | Return text => safe_extract_json text
  | Raise _ => None
  end.

(** The error of an attempt whose model call yields nothing. *)
Definition attempt_error (io : attempt_io) : exn :=
  match generate_content io with
  | Return text => extraction_failed text
  | Raise e => e
  end.

Definition empty_sheets : sheets :=
  {| worksheet := []; log_worksheet := []; total_rows_added := 0; error_count := 0 |}.

(** The sheets [st] with what [delta] holds added after. *)
Definition sheets_app (st delta : sheets) : sheets :=
  {| worksheet := worksheet st ++ worksheet delta;
     log_worksheet := log_worksheet st ++ log_worksheet delta;
     total_rows_added := total_rows_added st + total_rows_added delta;
     error_count := error_count st + error_count delta |}.

Section DriverVocabulary.

Variable str_other : pyval -> pystr.

(** What one file adds to empty sheets, and the exception that its [try]
    suite raises, if any. *)
Definition document_effect (d : document) : sheets :=
  fst (process_document str_other d empty_sheets).

Definition document_error (d : document) : option exn :=
  snd (document_suite str_other d empty_sheets).

Definition document_failed (d : document) : bool :=
  match document_error d with Some _ => true | None => false end.

End DriverVocabulary.

(** The row that the handler writes for a file whose processing raised. *)
Definition error_record (d : document) (e : exn) : list pystr :=
  [pdf_file d; exn_str e; error_time d].

(** The first of a list of attempts that gives something. *)
Fixpoint first_some {A : Type} (l : list (option A)) : option A :=
  match l with
  | [] => None
  | Some a :: _ => Some a
  | None :: l' => first_some l'
  end.

(** Every match of every pattern, in the order the loops visit them, with
    what decoding it gives. *)
Definition candidates (text : pystr) : list (option (list pyval)) :=
  flat_map (fun p => map (fun m => as_records (decode_match p m)) (findall p text))
    patterns.


(** The parser as the design document words it: the largest bracketed span
    (greedy), then a fenced block, then the largest braced span; the first
    that parses wins. *)
Definition greedy_array : pattern := [Chr (ch "["); Star any_char; Chr (ch "]")].
Definition greedy_object : pattern := [Chr (ch "{"); Star any_char; Chr (ch "}")].

Definition parse_first (p : pattern) (text : pystr) : option (list pyval) :=
  match findall p text with
  | m :: _ => as_records (json_loads m)
  | [] => None
  end.

Definition spec_safe_extract_json (text : pystr) : option (list pyval) :=
  first_some [parse_first greedy_array text; parse_first pat_json_fence text;
              parse_first pat_fence text; parse_first greedy_object text].

(** Every non-empty piece of [text]. *)
Definition pieces (text : pystr) : list pystr :=
  flat_map
    (fun i => map (fun n => firstn n (skipn i text)) (seq 1 (length text - i)))
    (seq 0 (length text)).

(** The JSON arrays written in [text]: the contents of every piece that
    starts with a bracket, ends with one and decodes to a list. *)
Definition json_arrays_in (text : pystr) : list (list pyval) :=
  flat_map
    (fun piece =>
       match piece, json_loads piece with
       | c :: _, Some (PList l) =>
         if ((c =? ch "[") && (last piece 0 =? ch "]"))%N then [l] else []
       | _, _ => []
       end)
    (pieces text).


Definition released (calls : list call) : list (nat * handle) :=
  flat_map (fun c => match c with DeleteFile k h => [(k, h)] | _ => [] end) calls.


(** ** Sample runs *)

(** A rendering of non-string values for the samples, which hold strings
    only and so never consult it. *)
Definition str_unused (v : pyval) : pystr := [].

(** A model that gives the same answer on every attempt. *)
Definition answers (text : pystr) (attempt : nat) : attempt_io :=
  {| upload_file := Return attempt;
     generate_content := Return text;
     delete_file := Return tt |}.

(** A file for which every write succeeds, except the error row when
    [log_err] says so. *)
Definition sample_document (name text : pystr) (log_err : outcome unit) : document :=
  {| pdf_file := name;
     file_exists := true;
     gemini := answers text;
     append_rows := Return tt;
     log_no_data := Return tt;
     no_data_time := py "2025-05-01 09:00:00";
     log_error := log_err;
     error_time := py "2025-05-01 09:00:01" |}.

(** Two failed attempts, then a good answer. *)
Definition flaky_then_good (attempt : nat) : attempt_io :=
  {| upload_file := Return (10 + attempt);
     generate_content :=
       match attempt with
       | 0 => Raise (ApiError (py "503"))
       | 1 => Return (py "no table found")
       | _ => Return (js "[{'상호':'가게'}]")
       end;
     delete_file := Return tt |}.

(** A file whose answer holds two records and a stray number. *)
Definition two_rows : document :=
  sample_document (py "a.pdf")
    (js "[{'성명':'김철수','수입금액':'1,000,000'}, 7, {'성명':'김철수'}]") (Return tt).


(** * Properties *)

(** ** Strings and characters *)

Example utf8_hangul : py "없음원" = [0xC5C6; 0xC74C; 0xC6D0]%N.
Proof. reflexivity. Qed.

Lemma str_eqb_eq (a b : pystr) : str_eqb a b = true <-> a = b.
Proof.
  revert b. induction a as [|x a IH]; intros [|y b]; simpl; try easy.
  rewrite andb_true_iff, N.eqb_eq, IH. split.
  - intros [-> ->]. reflexivity.
  - intros H. injection H as -> ->. split; reflexivity.
Qed.

Lemma str_eqb_refl (a : pystr) : str_eqb a a = true.
Proof. apply str_eqb_eq. reflexivity. Qed.

Lemma str_eqb_neq (a b : pystr) : str_eqb a b = false <-> a <> b.
Proof.
  split.
  - intros H E. apply str_eqb_eq in E. congruence.
  - intros H. destruct (str_eqb a b) eqn:E; [|reflexivity].
    apply str_eqb_eq in E. contradiction.
Qed.

Lemma str_in_In (x : pystr) (xs : list pystr) : str_in x xs = true <-> In x xs.
Proof.
  unfold str_in. rewrite existsb_exists. split.
  - intros [y [Hy E]]. apply str_eqb_eq in E. subst. exact Hy.
  - intros H. exists x. split; [exact H | apply str_eqb_refl].
Qed.

(** No white-space character is a digit. *)
Lemma space_not_digit (c : codepoint) : is_space c = true -> is_digit c = false.
Proof.
  unfold is_space. rewrite existsb_exists. intros [x [Hx E]].
  apply N.eqb_eq in E. subst x. unfold unicode_spaces in Hx. simpl in Hx.
  repeat (destruct Hx as [<- | Hx]; [vm_compute; reflexivity|]).
  contradiction.
Qed.

Lemma digit_not_space (c : codepoint) : is_digit c = true -> is_space c = false.
Proof.
  intros H. destruct (is_space c) eqn:E; [|reflexivity].
  apply space_not_digit in E. congruence.
Qed.

Lemma lstrip_no_space (c : codepoint) (s : pystr) :
  is_space c = false -> lstrip (c :: s) = c :: s.
Proof. intros H. simpl. rewrite H. reflexivity. Qed.

(** A string of digits has nothing to strip. *)
Lemma strip_digits (s : pystr) : forallb is_digit s = true -> strip s = s.
Proof.
  intros H. unfold strip.
  assert (L : forall t, forallb is_digit t = true -> lstrip t = t).
  { intros [|c t] Ht; [reflexivity|]. simpl in Ht. apply andb_true_iff in Ht.
    apply lstrip_no_space, digit_not_space, Ht. }
  rewrite (L s H), L, rev_involutive; [reflexivity|].
  rewrite forallb_forall in *. intros x Hx. apply H, in_rev, Hx.
Qed.

Lemma filter_digits_all (s : pystr) : forallb is_digit (filter is_digit s) = true.
Proof.
  apply forallb_forall. intros x Hx. apply filter_In in Hx. apply Hx.
Qed.

Lemma filter_all {A} (f : A -> bool) (l : list A) :
  forallb f l = true -> filter f l = l.
Proof.
  induction l as [|x l IH]; simpl; [reflexivity|].
  intros H. apply andb_true_iff in H. destruct H as [-> H]. f_equal. auto.
Qed.

(** ** [clean_currency] *)

(** The result is never empty and holds digits only. *)
Lemma clean_currency_digits (v : pyval) :
  clean_currency v <> [] /\ forallb is_digit (clean_currency v) = true.
Proof.
  destruct v; try (split; [discriminate | reflexivity]).
  unfold clean_currency. destruct (str_in _ _); [split; [discriminate | reflexivity]|].
  unfold strip_non_digits. destruct (filter is_digit s) as [|c t] eqn:E.
  - split; [discriminate | reflexivity].
  - split; [discriminate|]. rewrite <- E. apply filter_digits_all.
Qed.

(** On a non-empty string of digits [clean_currency] changes nothing. *)
Lemma clean_currency_fixed (s : pystr) :
  s <> [] -> forallb is_digit s = true -> clean_currency (PStr s) = s.
Proof.
  intros Hne Hd. unfold clean_currency. rewrite (strip_digits s Hd).
  destruct (str_in s _) eqn:E.
  - apply str_in_In in E. simpl in E.
    destruct E as [<- | [<- | [<- | []]]]; [contradiction | discriminate Hd ..].
  - unfold strip_non_digits. rewrite (filter_all _ _ Hd).
    destruct s; [contradiction | reflexivity].
Qed.

(** C5.  [clean_currency] is a total function to strings: a value that is not
    a string gives ["0"]; a string that is empty, ["없음"] or ["N/A"] once
    trimmed gives ["0"]; any other string gives its digits in order (the
    characters of the class [\d]), or ["0"] when it has none; leading zeros
    are kept; and cleaning a cleaned value changes nothing. *)
Theorem clean_currency_spec :
  (forall v, (forall s, v <> PStr s) -> clean_currency v = py "0")
  /\ (forall s, In (strip s) [[]; py "없음"; py "N/A"] ->
        clean_currency (PStr s) = py "0")
  /\ (forall s, ~ In (strip s) [[]; py "없음"; py "N/A"] ->
        clean_currency (PStr s)
        = match filter is_digit s with [] => py "0" | c :: ds => c :: ds end)
  /\ clean_currency (PStr (py "1,234,000원")) = py "1234000"
  /\ clean_currency (PStr (py "007")) = py "007"
  /\ (forall v, clean_currency (PStr (clean_currency v)) = clean_currency v).
Proof.
  repeat split.
  - intros v H. destruct v; try reflexivity. exfalso. apply (H s). reflexivity.
  - intros s H. apply str_in_In in H. unfold clean_currency. rewrite H. reflexivity.
  - intros s H. unfold clean_currency. destruct (str_in (strip s) _) eqn:E.
    + apply str_in_In in E. contradiction.
    + unfold strip_non_digits. destruct (filter is_digit s); reflexivity.
  - intros v. destruct (clean_currency_digits v) as [Hne Hd].
    apply clean_currency_fixed; assumption.
Qed.

Lemma clean_currency_spec_witness :
  clean_currency PNone = py "0"
  /\ clean_currency (PStr (py "  N/A ")) = py "0"
  /\ clean_currency (PStr (py "12,5원")) = py "125".
Proof.
  destruct clean_currency_spec as (H1 & H2 & H3 & _).
  split; [|split].
  - apply H1. discriminate.
  - apply H2. simpl. right. right. left. reflexivity.
  - apply H3. simpl. intros [H | [H | [H | []]]]; discriminate H.
Defined.

(** ** Dicts *)

Lemma distinct_NoDup (l : list pystr) : distinct l = true -> NoDup l.
Proof.
  induction l as [|x l IH]; simpl; intros H; constructor.
  - apply andb_true_iff in H. destruct H as [H _].
    intros Hin. apply str_in_In in Hin. rewrite Hin in H. discriminate.
  - apply IH. apply andb_true_iff in H. apply H.
Qed.

Lemma fields_distinct : NoDup EXTRACTION_FIELDS.
Proof. apply distinct_NoDup. vm_compute. reflexivity. Qed.

Lemma dict_get_set_same (k : pystr) (v : pyval) (d : pydict) :
  dict_get k (dict_set k v d) = Some v.
Proof.
  induction d as [|[k' v'] d IH]; simpl.
  - rewrite str_eqb_refl. reflexivity.
  - destruct (str_eqb k k') eqn:E; simpl; rewrite E; [reflexivity | exact IH].
Qed.

Lemma dict_get_set_other (k k' : pystr) (v : pyval) (d : pydict) :
  k <> k' -> dict_get k' (dict_set k v d) = dict_get k' d.
Proof.
  intros Hne. induction d as [|[k0 v0] d IH]; simpl.
  - apply not_eq_sym, str_eqb_neq in Hne. rewrite Hne. reflexivity.
  - destruct (str_eqb k k0) eqn:E; simpl.
    + apply str_eqb_eq in E. subst k0.
      apply not_eq_sym, str_eqb_neq in Hne. rewrite Hne. reflexivity.
    + destruct (str_eqb k' k0); [reflexivity | exact IH].
Qed.

(** A new key goes last. *)
Lemma dict_set_new_keys (k : pystr) (v : pyval) (d : pydict) :
  dict_mem k d = false -> map fst (dict_set k v d) = map fst d ++ [k].
Proof.
  unfold dict_mem. induction d as [|[k' v'] d IH]; simpl; [reflexivity|].
  destruct (str_eqb k k'); [discriminate|]. intros H. simpl. f_equal. auto.
Qed.

(** ** [validate_and_fix_data] *)

Lemma fill_missing_get (fields : list pystr) (item : pydict) (k : pystr) :
  dict_get k (fill_missing fields item)
  = match dict_get k item with
    | Some v => Some v
    | None => if str_in k fields then Some (PStr NA) else None
    end.
Proof.
  unfold fill_missing. revert item.
  induction fields as [|f fs IH]; intros item; simpl.
  - destruct (dict_get k item); reflexivity.
  - rewrite IH. unfold dict_mem. destruct (str_eqb k f) eqn:E.
    + apply str_eqb_eq in E. subst f.
      destruct (dict_get k item) eqn:G; [rewrite G; reflexivity|].
      rewrite dict_get_set_same. reflexivity.
    + apply str_eqb_neq in E. simpl.
      destruct (dict_get f item) eqn:G; [reflexivity|].
      rewrite dict_get_set_other by congruence. reflexivity.
Qed.

Lemma fill_missing_keys (fields : list pystr) (item : pydict) :
  NoDup fields ->
  map fst (fill_missing fields item) = map fst item ++ missing_fields fields item.
Proof.
  unfold fill_missing, missing_fields. intros Hnd. revert item.
  induction Hnd as [|f fs Hf Hnd IH]; intros item; simpl.
  - rewrite app_nil_r. reflexivity.
  - rewrite IH. destruct (dict_mem f item) eqn:M; simpl; [reflexivity|].
    rewrite (dict_set_new_keys _ _ _ M), <- app_assoc. simpl. do 2 f_equal.
    apply filter_ext_in. intros g Hg. unfold dict_mem.
    rewrite dict_get_set_other; [reflexivity|]. intros ->. contradiction.
Qed.

Lemma validate_items_map (l : list pyval) :
  validate_items l = map (fill_missing EXTRACTION_FIELDS) (dicts_of l).
Proof.
  induction l as [|v l IH]; [reflexivity|].
  destruct v; simpl; rewrite IH; reflexivity.
Qed.

(** C4.  On a list, the normaliser keeps the dicts, in order, and drops every
    other element; each kept record comes out with every field of the list
    present: a field the record had keeps its value, a field it lacked holds
    ["N/A"], every other key is untouched, and the keys are the record's own
    followed by the missing fields (so N missing fields add N keys). *)
Theorem validate_and_fix_data_spec (data_list : list pyval) :
  Forall2
    (fun item fixed =>
       (forall field, In field EXTRACTION_FIELDS ->
          dict_get field fixed
          = Some (match dict_get field item with Some v => v | None => PStr NA end))
       /\ (forall k v, dict_get k item = Some v -> dict_get k fixed = Some v)
       /\ map fst fixed = map fst item ++ missing_fields EXTRACTION_FIELDS item
       /\ length fixed = length item + length (missing_fields EXTRACTION_FIELDS item))
    (dicts_of data_list) (validate_and_fix_data (PList data_list)).
Proof.
  unfold validate_and_fix_data. rewrite validate_items_map.
  induction (dicts_of data_list) as [|item l IH]; cbn [map]; constructor; [|exact IH].
  assert (K := fill_missing_keys EXTRACTION_FIELDS item fields_distinct).
  repeat split.
  - intros field Hin. rewrite fill_missing_get.
    destruct (dict_get field item); [reflexivity|].
    apply str_in_In in Hin. rewrite Hin. reflexivity.
  - intros k v H. rewrite fill_missing_get, H. reflexivity.
  - exact K.
  - rewrite <- (length_map fst), K, length_app, length_map. reflexivity.
Qed.

Lemma validate_and_fix_data_spec_witness :
  exists fixed,
    validate_and_fix_data (PList [PInt 7; PDict [(py "성명", PStr (py "홍길동"))]; PStr NA])
    = [fixed]
    /\ dict_get (py "성명") fixed = Some (PStr (py "홍길동"))
    /\ dict_get (py "경비율") fixed = Some (PStr NA)
    /\ length fixed = 32.
Proof.
  pose proof (validate_and_fix_data_spec
                [PInt 7; PDict [(py "성명", PStr (py "홍길동"))]; PStr NA]) as H.
  remember (validate_and_fix_data _) as out eqn:Eout.
  cbn [dicts_of flat_map app] in H.
  destruct out as [|fixed out]; [inversion H|].
  apply Forall2_cons_iff in H. destruct H as [(H1 & H2 & H3 & H4) Hrest].
  inversion Hrest; subst out.
  exists fixed. split; [reflexivity|]. split; [|split].
  - apply H2. vm_compute. reflexivity.
  - rewrite H1 by (apply str_in_In; vm_compute; reflexivity).
    vm_compute. reflexivity.
  - rewrite H4. vm_compute. reflexivity.
Defined.

(** ** The patterns *)







(** ** [safe_extract_json] *)

Lemma first_some_app {A : Type} (l1 l2 : list (option A)) :
  first_some (l1 ++ l2)
  = match first_some l1 with Some a => Some a | None => first_some l2 end.
Proof.
  induction l1 as [|[a|] l1 IH]; cbn; [reflexivity | reflexivity | exact IH].
Qed.

Lemma first_some_In {A : Type} (l : list (option A)) (a : A) :
  first_some l = Some a -> In (Some a) l.
Proof.
  induction l as [|[b|] l IH]; cbn; [discriminate | | ].
  - intros [= ->]. left. reflexivity.
  - intros H. right. apply IH, H.
Qed.

Lemma first_some_None {A : Type} (l : list (option A)) :
  first_some l = None <-> forall c, In c l -> c = None.
Proof.
  induction l as [|[b|] l IH]; cbn.
  - split; [intros _ c [] | reflexivity].
  - split; [discriminate|]. intros H. apply (H (Some b)). left. reflexivity.
  - rewrite IH. split.
    + intros H c [<- | Hc]; [reflexivity | apply H, Hc].
    + intros H c Hc. apply H. right. exact Hc.
Qed.

Lemma try_matches_first (p : pattern) (matches : list pystr) :
  try_matches p matches
  = first_some (map (fun m => as_records (decode_match p m)) matches).
Proof.
  induction matches as [|m l IH]; [reflexivity|]. cbn [try_matches map first_some].
  destruct (as_records (decode_match p m)); [reflexivity | exact IH].
Qed.

Lemma try_patterns_first (ps : list pattern) (text : pystr) :
  try_patterns ps text
  = first_some
      (flat_map (fun p => map (fun m => as_records (decode_match p m)) (findall p text)) ps).
Proof.
  induction ps as [|p ps IH]; [reflexivity|]. cbn [try_patterns flat_map].
  rewrite first_some_app, try_matches_first, IH. reflexivity.
Qed.

Lemma safe_extract_json_first (text : pystr) :
  safe_extract_json text = first_some (candidates text).
Proof. apply try_patterns_first. Qed.

Lemma candidates_In (text : pystr) (c : option (list pyval)) :
  In c (candidates text)
  <-> exists p m, In p patterns /\ In m (findall p text)
                  /\ c = as_records (decode_match p m).
Proof.
  unfold candidates. rewrite in_flat_map. split.
  - intros [p [Hp Hc]]. apply in_map_iff in Hc. destruct Hc as [m [<- Hm]].
    exists p, m. auto.
  - intros [p [m [Hp [Hm ->]]]]. exists p. split; [exact Hp|].
    apply in_map_iff. exists m. auto.
Qed.

(** What the parser returns is what some match of one of its patterns
    decodes to, and it returns nothing exactly when no match of any pattern
    decodes to a JSON array or object. *)
Lemma safe_extract_json_sound :
  (forall text records,
     safe_extract_json text = Some records ->
     exists p m, In p patterns /\ In m (findall p text)
                 /\ as_records (decode_match p m) = Some records)
  /\ (forall text,
        safe_extract_json text = None
        <-> forall p m, In p patterns -> In m (findall p text) ->
                        as_records (decode_match p m) = None).
Proof.
  split.
  - intros text records H. rewrite safe_extract_json_first in H.
    apply first_some_In, candidates_In in H.
    destruct H as [p [m [Hp [Hm E]]]]. exists p, m. auto.
  - intros text. rewrite safe_extract_json_first, first_some_None. split.
    + intros H p m Hp Hm. apply H, candidates_In. exists p, m. auto.
    + intros H c Hc. apply candidates_In in Hc.
      destruct Hc as [p [m [Hp [Hm ->]]]]. apply H; assumption.
Qed.



(** C1.  The claim is what the function is written for (its docstring: to
    extract the JSON array of the text) and the code misses it.  The answer
    below is one well-formed JSON array of two records, and the only array
    written in the text; the first record has a closing bracket inside a
    string.  The lazy array pattern stops at that bracket, its match does not
    decode, and the object pattern then gives the first record alone: the
    second record is lost and nothing fails. *)
Lemma bracket_in_string_truncates :
  let text := js "[{'상호':'A]'},{'상호':'B'}]" in
  json_arrays_in text
  = [[PDict [(py "상호", PStr (py "A]"))]; PDict [(py "상호", PStr (py "B"))]]]
  /\ json_loads text
     = Some (PList [PDict [(py "상호", PStr (py "A]"))]; PDict [(py "상호", PStr (py "B"))]])
  /\ safe_extract_json text = Some [PDict [(py "상호", PStr (py "A]"))]].
Proof. repeat split; vm_compute; reflexivity. Qed.

(** The order in which the candidates are visited. *)
Lemma safe_extract_json_candidates (text : pystr) :
  safe_extract_json text = first_some (candidates text)
  /\ candidates text
     = map (fun m => as_records (json_loads m)) (findall pat_array text)
       ++ map (fun m => as_records (json_loads (strip m))) (findall pat_json_fence text)
       ++ map (fun m => as_records (json_loads (strip m))) (findall pat_fence text)
       ++ map (fun m => as_records (json_loads m)) (findall pat_object text).
Proof.
  split; [apply safe_extract_json_first|].
  unfold candidates, patterns. cbn [flat_map]. rewrite app_nil_r. reflexivity.
Qed.

(** C2.  The claim describes the parser that the function is written to be
    (the largest bracketed span first, as the sibling script matches it) and
    the code misses it by its quantifier.  On an array of two records whose
    first record has a closing bracket in a string, the largest bracketed
    span is the whole array and parses to both records; the code's lazy
    pattern gives the shortest span, which does not parse, and the result is
    the first record alone, found by the object pattern. *)
Lemma lazy_span_differs_from_greedy :
  let text := js "[{'상호':'가]나'},{'상호':'다'}]" in
  findall pat_array text = [js "[{'상호':'가]"]
  /\ findall greedy_array text = [text]
  /\ spec_safe_extract_json text
     = Some [PDict [(py "상호", PStr (py "가]나"))]; PDict [(py "상호", PStr (py "다"))]]
  /\ safe_extract_json text = Some [PDict [(py "상호", PStr (py "가]나"))]]
  /\ safe_extract_json text <> spec_safe_extract_json text.
Proof. repeat split; try (vm_compute; reflexivity). vm_compute. discriminate. Qed.

(** ** [extract_data_with_gemini] *)

Ltac run_attempts :=
  unfold extract_data_with_gemini, max_retries, attempt_records, attempt_error in *;
  cbn [seq attempts_loop] in *;
  unfold try_suite, finally_clause, except_clause, max_retries in *.

Ltac attempt_cases io k :=
  let text := fresh "text" in
  destruct (generate_content (io k)) as [text|?e];
  [destruct (safe_extract_json text) as [?data|] eqn:?Hjson|];
  destruct (delete_file (io k)) as [[]|?e];
  cbn [Nat.ltb Nat.leb Nat.eqb Nat.sub app fst snd] in *;
  try discriminate.

(** C3, as the code has it.  When the upload of each attempt succeeds, the
    uploaded file is deleted once per attempt, after the model call and before
    the next upload, whatever the deletion itself answers: two failed attempts
    and a good third return the third's records after three deletions; three
    failed attempts raise after three deletions, and the error is the
    [ValueError] carrying the last answer when the last model call answered,
    the call's own exception when it raised; an attempt that yields records
    ends the loop. *)
Theorem retry_releases_every_upload
  (path : pystr) (io : nat -> attempt_io) (h0 h1 h2 : handle)
  (U0 : upload_file (io 0) = Return h0)
  (U1 : upload_file (io 1) = Return h1)
  (U2 : upload_file (io 2) = Return h2) :
  let first := [UploadFile 0; GenerateContent 0 h0; DeleteFile 0 h0] in
  let second := [UploadFile 1; GenerateContent 1 h1; DeleteFile 1 h1] in
  let third := [UploadFile 2; GenerateContent 2 h2; DeleteFile 2 h2] in
  (forall d, attempt_records (io 0) = Some d ->
     extract_data_with_gemini true path io = (first, Return (PList d)))
  /\ (forall d, attempt_records (io 0) = None -> attempt_records (io 1) = Some d ->
        extract_data_with_gemini true path io = (first ++ second, Return (PList d)))
  /\ (forall d, attempt_records (io 0) = None -> attempt_records (io 1) = None ->
        attempt_records (io 2) = Some d ->
        extract_data_with_gemini true path io
        = (first ++ second ++ third, Return (PList d))
        /\ releases (fst (extract_data_with_gemini true path io)) = 3)
  /\ (attempt_records (io 0) = None -> attempt_records (io 1) = None ->
      attempt_records (io 2) = None ->
        extract_data_with_gemini true path io
        = (first ++ second ++ third, Raise (attempt_error (io 2)))
        /\ releases (fst (extract_data_with_gemini true path io)) = 3).
Proof.
  intros first second third. subst first second third.
  repeat split; intros; run_attempts; rewrite ?U0, ?U1, ?U2 in *;
    attempt_cases io 0; try reflexivity;
    attempt_cases io 1; try reflexivity;
    attempt_cases io 2; try reflexivity; congruence.
Qed.

(** C3, a run the claim does not describe: the upload is refused on every
    attempt.  All three attempts fail, nothing is ever deleted, and the error
    raised is the upload's, which carries no answer of the model. *)
Lemma retry_upload_refused_no_release :
  let io := fun _ : nat =>
    {| upload_file := Raise (ApiError (py "quota exceeded"));
       generate_content := Return (js "[]");
       delete_file := Return tt |} in
  extract_data_with_gemini true (py "./pdfs/a.pdf") io
  = ([UploadFile 0; UploadFile 1; UploadFile 2], Raise (ApiError (py "quota exceeded")))
  /\ releases (fst (extract_data_with_gemini true (py "./pdfs/a.pdf") io)) <> 3.
Proof. split; [reflexivity | vm_compute; discriminate]. Qed.

Lemma retry_releases_every_upload_witness :
  extract_data_with_gemini true (py "./pdfs/a.pdf") flaky_then_good
  = ([UploadFile 0; GenerateContent 0 10; DeleteFile 0 10;
      UploadFile 1; GenerateContent 1 11; DeleteFile 1 11;
      UploadFile 2; GenerateContent 2 12; DeleteFile 2 12],
     Return (PList [PDict [(py "상호", PStr (py "가게"))]]))
  /\ releases (fst (extract_data_with_gemini true (py "./pdfs/a.pdf") flaky_then_good)) = 3.
Proof.
  pose proof (retry_releases_every_upload (py "./pdfs/a.pdf") flaky_then_good 10 11 12
                eq_refl eq_refl eq_refl) as H.
  cbv zeta in H. destruct H as (_ & _ & H & _).
  apply H; vm_compute; reflexivity.
Defined.

(** ** The batch loop *)

Section DriverProperties.

Variable str_other : pyval -> pystr.

Lemma sheets_app_empty (st : sheets) : sheets_app st empty_sheets = st.
Proof.
  destruct st. unfold sheets_app. cbn.
  rewrite !app_nil_r, !Nat.add_0_r. reflexivity.
Qed.


(** The [try] suite of a file does not read the sheets: it adds to them. *)
Lemma document_suite_frame (d : document) (st : sheets) :
  document_suite str_other d st
  = (sheets_app st (fst (document_suite str_other d empty_sheets)),
     snd (document_suite str_other d empty_sheets)).
Proof.
  unfold document_suite.
  destruct (snd (extract_data_with_gemini _ _ _)) as [v|e]; cbn [fst snd].
  2:{ rewrite sheets_app_empty. reflexivity. }
  destruct (validate_and_fix_data v) as [|item items].
  - destruct (log_no_data d); cbn [fst snd];
      [|rewrite sheets_app_empty; reflexivity].
    destruct st. unfold log_row, sheets_app. cbn.
    rewrite app_nil_r, !Nat.add_0_r. reflexivity.
  - destruct (rows_from _ _ _ _) as [|row rows]; cbn [fst snd];
      [rewrite sheets_app_empty; reflexivity|].
    destruct (append_rows d); cbn [fst snd];
      [|rewrite sheets_app_empty; reflexivity].
    destruct st. unfold add_rows, sheets_app. cbn.
    rewrite app_nil_r, !Nat.add_0_r. reflexivity.
Qed.

Lemma process_document_frame (d : document) (st : sheets) :
  process_document str_other d st
  = (sheets_app st (document_effect str_other d),
     snd (process_document str_other d empty_sheets)).
Proof.
  unfold document_effect, process_document.
  rewrite (document_suite_frame d st).
  destruct (document_suite str_other d empty_sheets) as [delta [e|]]; cbn [fst snd];
    [|reflexivity].
  destruct (log_error d); cbn [fst snd]; [|reflexivity].
  destruct st, delta. unfold count_error, log_row, sheets_app. cbn.
  rewrite <- !app_assoc, <- !Nat.add_assoc. reflexivity.
Qed.

(** A file leaves the loop only through a failed write of its error row. *)
Lemma process_document_continues (d : document) :
  (document_failed str_other d = true -> log_error d = Return tt) ->
  snd (process_document str_other d empty_sheets) = None.
Proof.
  unfold document_failed, document_error, process_document. intros H.
  destruct (document_suite str_other d empty_sheets) as [st' [e|]]; [|reflexivity].
  cbn [snd] in H. rewrite H; reflexivity.
Qed.

Lemma document_effect_errors (d : document) :
  (document_failed str_other d = true -> log_error d = Return tt) ->
  error_count (document_effect str_other d)
  = if document_failed str_other d then 1 else 0.
Proof.
  unfold document_effect, document_failed, document_error, process_document.
  assert (E : error_count (fst (document_suite str_other d empty_sheets)) = 0).
  { unfold document_suite.
    destruct (snd (extract_data_with_gemini _ _ _)); [|reflexivity].
    destruct (validate_and_fix_data _).
    - destruct (log_no_data d); reflexivity.
    - destruct (rows_from _ _ _ _); [reflexivity|].
      destruct (append_rows d); reflexivity. }
  destruct (document_suite str_other d empty_sheets) as [delta [e|]];
    cbn [fst snd] in *; intros H; [|exact E].
  rewrite H by reflexivity. cbn. rewrite E. reflexivity.
Qed.

(** The loop over the files, when every error row can be written: it runs to
    the end, and the sheets hold what each file adds, in order. *)
Lemma main_loop_runs (pdf_files : list document) (st : sheets) :
  (forall d, In d pdf_files -> document_failed str_other d = true ->
             log_error d = Return tt) ->
  main_loop str_other pdf_files st
  = (fold_left sheets_app (map (document_effect str_other) pdf_files) st, None).
Proof.
  revert st. induction pdf_files as [|d rest IH]; intros st H; [reflexivity|].
  cbn [main_loop map fold_left].
  rewrite process_document_frame, (process_document_continues d).
  - apply IH. intros d' Hd'. apply H. right. exact Hd'.
  - apply H. left. reflexivity.
Qed.

Lemma fold_sheets_errors (effects : list sheets) (st : sheets) :
  error_count (fold_left sheets_app effects st)
  = error_count st + list_sum (map error_count effects).
Proof.
  revert st. induction effects as [|e es IH]; intros st; cbn [fold_left map list_sum].
  - rewrite Nat.add_0_r. reflexivity.
  - rewrite IH. cbn. rewrite Nat.add_assoc. reflexivity.
Qed.

Lemma fold_sheets_worksheet (effects : list sheets) (st : sheets) :
  worksheet (fold_left sheets_app effects st)
  = worksheet st ++ flat_map worksheet effects.
Proof.
  revert st. induction effects as [|e es IH]; intros st; cbn [fold_left flat_map].
  - rewrite app_nil_r. reflexivity.
  - rewrite IH. cbn. rewrite app_assoc. reflexivity.
Qed.

Lemma fold_sheets_log (effects : list sheets) (st : sheets) :
  log_worksheet (fold_left sheets_app effects st)
  = log_worksheet st ++ flat_map log_worksheet effects.
Proof.
  revert st. induction effects as [|e es IH]; intros st; cbn [fold_left flat_map].
  - rewrite app_nil_r. reflexivity.
  - rewrite IH. cbn. rewrite app_assoc. reflexivity.
Qed.

Lemma fold_sheets_total (effects : list sheets) (st : sheets) :
  total_rows_added (fold_left sheets_app effects st)
  = total_rows_added st + list_sum (map total_rows_added effects).
Proof.
  revert st. induction effects as [|e es IH]; intros st; cbn [fold_left map list_sum].
  - rewrite Nat.add_0_r. reflexivity.
  - rewrite IH. cbn. rewrite Nat.add_assoc. reflexivity.
Qed.

Lemma rows_from_length (pdf : pystr) (i : nat) (validated : list pydict) :
  length (rows_from str_other pdf i validated) = length validated.
Proof.
  revert i. induction validated as [|x l IH]; intros i; cbn [rows_from length];
    [reflexivity | rewrite IH; reflexivity].
Qed.

(** A file whose [try] suite raises adds its error row and nothing else. *)
Lemma document_effect_failed (d : document) (e : exn) :
  document_error str_other d = Some e -> log_error d = Return tt ->
  document_effect str_other d
  = {| worksheet := []; log_worksheet := [error_record d e];
       total_rows_added := 0; error_count := 1 |}.
Proof.
  unfold document_error, document_effect, process_document, document_suite.
  destruct (snd (extract_data_with_gemini _ _ _)) as [v|e0]; cbn [fst snd].
  2:{ intros [= ->] ->. reflexivity. }
  destruct (validate_and_fix_data v) as [|item items].
  - destruct (log_no_data d); cbn [fst snd]; [discriminate|].
    intros [= ->] ->. reflexivity.
  - destruct (rows_from _ _ _ _) as [|row rows]; cbn [fst snd]; [discriminate|].
    destruct (append_rows d); cbn [fst snd]; [discriminate|].
    intros [= ->] ->. reflexivity.
Qed.

(** A file that puts rows on the sheet writes no error row and counts its
    rows. *)
Lemma document_effect_rows (d : document) :
  worksheet (document_effect str_other d) <> [] ->
  document_error str_other d = None
  /\ document_effect str_other d
     = {| worksheet := worksheet (document_effect str_other d); log_worksheet := [];
          total_rows_added := length (worksheet (document_effect str_other d));
          error_count := 0 |}.
Proof.
  unfold document_error, document_effect, process_document, document_suite.
  destruct (snd (extract_data_with_gemini _ _ _)) as [v|e0]; cbn [fst snd].
  2:{ destruct (log_error d); cbn; intros H; contradiction. }
  destruct (validate_and_fix_data v) as [|item items].
  - destruct (log_no_data d); cbn [fst snd].
    + cbn. intros H; contradiction.
    + destruct (log_error d); cbn; intros H; contradiction.
  - destruct (rows_from _ _ _ _) as [|row rows]; cbn [fst snd].
    + cbn. intros H; contradiction.
    + destruct (append_rows d); cbn [fst snd].
      * intros _. split; reflexivity.
      * destruct (log_error d); cbn; intros H; contradiction.
Qed.

Lemma document_effect_total (d : document) :
  total_rows_added (document_effect str_other d)
  = length (worksheet (document_effect str_other d)).
Proof.
  unfold document_effect, process_document, document_suite.
  destruct (snd (extract_data_with_gemini _ _ _)) as [v|e0]; cbn [fst snd].
  2:{ destruct (log_error d); reflexivity. }
  destruct (validate_and_fix_data v) as [|item items].
  - destruct (log_no_data d); cbn [fst snd]; [reflexivity|].
    destruct (log_error d); reflexivity.
  - destruct (rows_from _ _ _ _) as [|row rows]; cbn [fst snd]; [reflexivity|].
    destruct (append_rows d); cbn [fst snd]; [reflexivity|].
    destruct (log_error d); reflexivity.
Qed.

Lemma list_sum_failed (pdf_files : list document) :
  (forall d, In d pdf_files -> document_failed str_other d = true ->
             log_error d = Return tt) ->
  list_sum (map error_count (map (document_effect str_other) pdf_files))
  = length (filter (document_failed str_other) pdf_files).
Proof.
  induction pdf_files as [|d l IH]; intros H; [reflexivity|].
  cbn [map filter].
  match goal with |- list_sum (?a :: ?t) = _ => change (list_sum (a :: t)) with (a + list_sum t) end.
  rewrite document_effect_errors by (apply H; left; reflexivity).
  rewrite IH by (intros d' Hd'; apply H; right; exact Hd').
  destruct (document_failed str_other d); reflexivity.
Qed.

Lemma list_sum_rows (pdf_files : list document) :
  list_sum (map total_rows_added (map (document_effect str_other) pdf_files))
  = length (flat_map (fun d => worksheet (document_effect str_other d)) pdf_files).
Proof.
  induction pdf_files as [|d l IH]; [reflexivity|].
  cbn [map flat_map].
  match goal with |- list_sum (?a :: ?t) = _ => change (list_sum (a :: t)) with (a + list_sum t) end.
  rewrite length_app, IH, document_effect_total. reflexivity.
Qed.

(** C7, as the code has it.  Provided the error row of every failing file
    can be written, the loop never stops early: each file whose processing
    raises adds exactly one error row (file name, error text, time) to the
    error sheet and nothing to the main sheet, the other files add what they
    add, in order, and the closing report counts the files, the failures and
    the rows added.  With three files of which only the second fails, the
    main sheet receives the rows of the first and the third, the error sheet
    one row for the second, and the report says 2 successes and 1 failure. *)
Theorem batch_survives_document_failures (sheet log : list (list pystr)) :
  (forall pdf_files,
     (forall d, In d pdf_files -> document_failed str_other d = true ->
                log_error d = Return tt) ->
     exists st,
       main str_other sheet log pdf_files
       = (st, Return
                {| files := length pdf_files;
                   successes := (Z.of_nat (length pdf_files)
                                 - Z.of_nat (length (filter (document_failed str_other)
                                                        pdf_files)))%Z;
                   errors := length (filter (document_failed str_other) pdf_files);
                   rows_added :=
                     length (flat_map (fun d => worksheet (document_effect str_other d))
                               pdf_files) |})
       /\ worksheet st
          = map (map CStr) sheet
              ++ flat_map (fun d => worksheet (document_effect str_other d)) pdf_files
       /\ log_worksheet st
          = log ++ flat_map (fun d => log_worksheet (document_effect str_other d)) pdf_files
       /\ (forall d e, In d pdf_files -> document_error str_other d = Some e ->
             document_effect str_other d
             = {| worksheet := []; log_worksheet := [error_record d e];
                  total_rows_added := 0; error_count := 1 |}))
  /\ (forall d1 d2 d3 e,
        worksheet (document_effect str_other d1) <> [] ->
        worksheet (document_effect str_other d3) <> [] ->
        document_error str_other d2 = Some e ->
        log_error d2 = Return tt ->
        let rows1 := worksheet (document_effect str_other d1) in
        let rows3 := worksheet (document_effect str_other d3) in
        main str_other sheet log [d1; d2; d3]
        = ({| worksheet := map (map CStr) sheet ++ rows1 ++ rows3;
              log_worksheet := log ++ [error_record d2 e];
              total_rows_added := length rows1 + length rows3;
              error_count := 1 |},
           Return {| files := 3; successes := 2; errors := 1;
                     rows_added := length rows1 + length rows3 |})).
Proof.
  split.
  - intros pdf_files H. unfold main. rewrite (main_loop_runs _ _ H).
    eexists. split; [|split; [|split]].
    + rewrite fold_sheets_errors, fold_sheets_total, (list_sum_failed _ H), list_sum_rows.
      reflexivity.
    + rewrite fold_sheets_worksheet, flat_map_concat_map, map_map,
        <- flat_map_concat_map. reflexivity.
    + rewrite fold_sheets_log, flat_map_concat_map, map_map,
        <- flat_map_concat_map. reflexivity.
    + intros d e Hd He. apply document_effect_failed; [exact He|].
      apply (H d Hd). unfold document_failed. rewrite He. reflexivity.
  - intros d1 d2 d3 e R1 R3 E2 L2 rows1 rows3. subst rows1 rows3.
    destruct (document_effect_rows d1 R1) as [E1 F1].
    destruct (document_effect_rows d3 R3) as [E3 F3].
    pose proof (document_effect_failed d2 e E2 L2) as F2.
    unfold main. rewrite main_loop_runs.
    + cbn [map fold_left]. rewrite F2.
      set (r1 := worksheet (document_effect str_other d1)) in *.
      set (r3 := worksheet (document_effect str_other d3)) in *.
      rewrite F1, F3. unfold sheets_app. cbn.
      rewrite !app_nil_r, !Nat.add_0_r, <- !app_assoc. reflexivity.
    + intros d [<- | [<- | [<- | []]]]; unfold document_failed;
        rewrite ?E1, ?E2, ?E3; try discriminate. intros _. exact L2.
Qed.

(** C8, as the code has it.  A file whose extraction succeeds and leaves no
    valid record after normalisation puts no row on the main sheet, is not
    counted as a failure and adds nothing to the row total; but the script
    does write a row for it on the error sheet: the file name, the text
    ["유효한 데이터 없음"] and the time. *)
Theorem no_valid_data_is_logged (d : document) (st : sheets) (v : pyval) :
  snd (extract_data_with_gemini (file_exists d) (py "./pdfs/" ++ pdf_file d) (gemini d))
  = Return v ->
  validate_and_fix_data v = [] ->
  log_no_data d = Return tt ->
  process_document str_other d st
  = ({| worksheet := worksheet st;
        log_worksheet := log_worksheet st ++ [[pdf_file d; NO_VALID_DATA; no_data_time d]];
        total_rows_added := total_rows_added st;
        error_count := error_count st |}, None)
  /\ document_failed str_other d = false.
Proof.
  intros Hx Hv Hl.
  unfold document_failed, document_error, process_document, document_suite.
  rewrite Hx, Hv, Hl. split; reflexivity.
Qed.

(** ** The rows *)

Opaque EXTRACTION_FIELDS currency_fields NA py.

Lemma rows_from_nth (pdf : pystr) (validated : list pydict) (i0 i : nat) :
  nth_error (rows_from str_other pdf i0 validated) i
  = option_map (data_row str_other pdf (i0 + i)) (nth_error validated i).
Proof.
  revert i0 i. induction validated as [|x l IH]; intros i0 [|i]; cbn [rows_from nth_error option_map];
    try reflexivity.
  - rewrite Nat.add_0_r. reflexivity.
  - rewrite IH. do 2 f_equal. lia.
Qed.

Lemma data_row_length (pdf : pystr) (i : nat) (item : pydict) :
  length (data_row str_other pdf i item) = length EXTRACTION_FIELDS + 2.
Proof.
  unfold data_row. rewrite length_app, length_map. cbn [length]. lia.
Qed.

(** The cell of a field that holds the sentinel: ["0"] in a currency column,
    the sentinel elsewhere. *)
Lemma field_cell_sentinel (item : pydict) (field : pystr) :
  dict_get field item = Some (PStr NA) ->
  field_cell str_other item field = if str_in field currency_fields then py "0" else NA.
Proof.
  intros H. unfold field_cell. rewrite H.
  destruct (str_in field currency_fields); vm_compute; reflexivity.
Qed.

(** The cell of a currency field: digits, at least one. *)
Lemma field_cell_currency (item : pydict) (field : pystr) :
  str_in field currency_fields = true ->
  field_cell str_other item field <> []
  /\ forallb is_digit (field_cell str_other item field) = true.
Proof.
  intros H. unfold field_cell. rewrite H. cbn [py_str].
  apply clean_currency_digits.
Qed.

(** What a file with records puts on the main sheet: one row per record. *)
Lemma process_document_with_records (d : document) (st : sheets) (records : list pyval) :
  snd (extract_data_with_gemini (file_exists d) (py "./pdfs/" ++ pdf_file d) (gemini d))
  = Return (PList records) ->
  dicts_of records <> [] ->
  append_rows d = Return tt ->
  process_document str_other d st
  = (add_rows st (rows_from str_other (pdf_file d) 0
                    (map (fill_missing EXTRACTION_FIELDS) (dicts_of records))), None).
Proof.
  intros Hx Hne Ha. unfold process_document, document_suite.
  rewrite Hx. unfold validate_and_fix_data. rewrite validate_items_map.
  destruct (dicts_of records) as [|item items]; [contradiction|].
  cbn [map rows_from]. rewrite Ha. reflexivity.
Qed.

(** C9, as the code has it.  A file with n >= 1 records adds n rows.  Row i
    (from 0) has [len(EXTRACTION_FIELDS) + 2] cells: the file name on the
    first row and the empty string on the others, the row number i + 1, then
    one cell per field in the order of the field list.  No field is missing:
    the cell of a field that the record lacks holds the sentinel ["N/A"],
    except in a currency column, where it holds ["0"]. *)
Theorem appended_rows_shape (d : document) (st : sheets) (records : list pyval) :
  snd (extract_data_with_gemini (file_exists d) (py "./pdfs/" ++ pdf_file d) (gemini d))
  = Return (PList records) ->
  dicts_of records <> [] ->
  append_rows d = Return tt ->
  exists rows,
    process_document str_other d st = (add_rows st rows, None)
    /\ length rows = length (dicts_of records)
    /\ Forall (fun row => length row = length EXTRACTION_FIELDS + 2) rows
    /\ forall i item, nth_error (dicts_of records) i = Some item ->
         exists cells,
           nth_error rows i
           = Some (CStr (if i =? 0 then pdf_file d else [])
                     :: CInt (Z.of_nat i + 1) :: map CStr cells)
           /\ length cells = length EXTRACTION_FIELDS
           /\ forall j field, nth_error EXTRACTION_FIELDS j = Some field ->
                nth_error cells j
                = Some (field_cell str_other (fill_missing EXTRACTION_FIELDS item) field)
                /\ (dict_mem field item = false ->
                    nth_error cells j
                    = Some (if str_in field currency_fields then py "0" else NA)).
Proof.
  intros Hx Hne Ha. eexists. split; [exact (process_document_with_records d st records Hx Hne Ha)|].
  split; [rewrite rows_from_length, length_map; reflexivity|]. split.
  - apply Forall_forall. intros row Hrow. apply In_nth_error in Hrow.
    destruct Hrow as [i Hi]. rewrite rows_from_nth in Hi.
    destruct (nth_error _ i); [|discriminate]. injection Hi as <-.
    apply data_row_length.
  - intros i item Hi.
    exists (map (field_cell str_other (fill_missing EXTRACTION_FIELDS item)) EXTRACTION_FIELDS).
    rewrite rows_from_nth, nth_error_map, Hi. cbn [option_map Nat.add].
    unfold data_row. rewrite map_map.
    split; [reflexivity|]. split; [apply length_map|].
    intros j field Hj. rewrite nth_error_map, Hj. cbn [option_map].
    split; [reflexivity|]. intros Hm. f_equal. apply field_cell_sentinel.
    rewrite fill_missing_get. unfold dict_mem in Hm.
    destruct (dict_get field item); [discriminate|].
    apply nth_error_In, str_in_In in Hj. rewrite Hj. reflexivity.
Qed.

(** C10, as the code has it.  In every row put on the main sheet the first
    cell is a string (the file name or the empty string), the second cell is
    the row number, an integer, and every cell after it, one per field, is a
    string.  The cell of a currency field is a non-empty string of digits
    (characters of the class [\d]); where the record lacked the field, or held
    the sentinel ["N/A"], that cell is ["0"], never ["N/A"]. *)
Theorem appended_cells_typed (d : document) (st : sheets) (records : list pyval) :
  snd (extract_data_with_gemini (file_exists d) (py "./pdfs/" ++ pdf_file d) (gemini d))
  = Return (PList records) ->
  dicts_of records <> [] ->
  append_rows d = Return tt ->
  exists rows,
    process_document str_other d st = (add_rows st rows, None)
    /\ forall i item, nth_error (dicts_of records) i = Some item ->
         exists name cells,
           nth_error rows i = Some (CStr name :: CInt (Z.of_nat i + 1) :: map CStr cells)
           /\ length cells = length EXTRACTION_FIELDS
           /\ forall j field cell,
                nth_error EXTRACTION_FIELDS j = Some field ->
                nth_error cells j = Some cell ->
                str_in field currency_fields = true ->
                cell <> [] /\ forallb is_digit cell = true
                /\ (dict_mem field item = false \/ dict_get field item = Some (PStr NA) ->
                    cell = py "0").
Proof.
  intros Hx Hne Ha. eexists. split; [exact (process_document_with_records d st records Hx Hne Ha)|].
  intros i item Hi.
  exists (if i =? 0 then pdf_file d else []),
    (map (field_cell str_other (fill_missing EXTRACTION_FIELDS item)) EXTRACTION_FIELDS).
  rewrite rows_from_nth, nth_error_map, Hi. cbn [option_map Nat.add].
  unfold data_row. rewrite map_map.
  split; [reflexivity|]. split; [apply length_map|].
  intros j field cell Hj Hc Hcur. rewrite nth_error_map, Hj in Hc.
  injection Hc as <-.
  destruct (field_cell_currency (fill_missing EXTRACTION_FIELDS item) field Hcur) as [N D].
  split; [exact N|]. split; [exact D|].
  intros Habs. rewrite field_cell_sentinel, Hcur; [reflexivity|].
  rewrite fill_missing_get. unfold dict_mem in Habs.
  destruct (dict_get field item) as [v|].
  - destruct Habs as [Habs | Habs]; [discriminate | exact Habs].
  - apply nth_error_In, str_in_In in Hj. rewrite Hj. reflexivity.
Qed.

Transparent EXTRACTION_FIELDS currency_fields NA py.

End DriverProperties.

(** C7, a run the claim does not describe: the first file fails and its error
    row cannot be written.  The exception of that write ends the run: the
    second file is never processed and no report is made. *)
Lemma batch_aborts_when_error_row_fails :
  main str_unused [] []
    [sample_document (py "a.pdf") (py "I cannot read this file.") (Raise (ApiError (py "429")));
     sample_document (py "b.pdf") (js "[{'성명':'홍길동'}]") (Return tt)]
  = (empty_sheets, Raise (ApiError (py "429"))).
Proof. vm_compute. reflexivity. Qed.

Lemma batch_survives_document_failures_witness :
  let d1 := sample_document (py "a.pdf") (js "[{'성명':'홍길동'}]") (Return tt) in
  let d2 := sample_document (py "b.pdf") (py "I cannot read this file.") (Return tt) in
  let d3 := sample_document (py "c.pdf") (js "[{'성명':'김철수'}, {'성명':'김철수'}]") (Return tt) in
  snd (main str_unused [] [] [d1; d2; d3])
  = Return {| files := 3; successes := 2; errors := 1; rows_added := 3 |}
  /\ log_worksheet (fst (main str_unused [] [] [d1; d2; d3]))
     = [[py "b.pdf";
         py "모든 시도에서 JSON 추출 실패. 원본 응답:" ++ [10%N] ++ py "I cannot read this file.";
         py "2025-05-01 09:00:01"]].
Proof.
  intros d1 d2 d3.
  destruct (batch_survives_document_failures str_unused [] []) as [_ H].
  specialize (H d1 d2 d3
                (extraction_failed (py "I cannot read this file."))).
  cbv zeta in H. rewrite H.
  - split; vm_compute; reflexivity.
  - vm_compute. discriminate.
  - vm_compute. discriminate.
  - vm_compute. reflexivity.
  - reflexivity.
Defined.

(** C8, a run against the claim as stated: the model answers with an empty
    array.  No row reaches the main sheet and no failure is counted, yet the
    error sheet receives a row for the file. *)
Lemma empty_answer_writes_error_row :
  main str_unused [] [] [sample_document (py "a.pdf") (js "[]") (Return tt)]
  = ({| worksheet := [];
        log_worksheet := [[py "a.pdf"; py "유효한 데이터 없음"; py "2025-05-01 09:00:00"]];
        total_rows_added := 0;
        error_count := 0 |},
     Return {| files := 1; successes := 1; errors := 0; rows_added := 0 |}).
Proof. vm_compute. reflexivity. Qed.

Lemma no_valid_data_is_logged_witness :
  process_document str_unused
    (sample_document (py "a.pdf") (js "[1, 'x']") (Return tt)) empty_sheets
  = ({| worksheet := [];
        log_worksheet := [[py "a.pdf"; NO_VALID_DATA; py "2025-05-01 09:00:00"]];
        total_rows_added := 0;
        error_count := 0 |}, None)
  /\ document_failed str_unused
       (sample_document (py "a.pdf") (js "[1, 'x']") (Return tt)) = false.
Proof.
  apply (no_valid_data_is_logged str_unused
           (sample_document (py "a.pdf") (js "[1, 'x']") (Return tt)) empty_sheets
           (PList [PInt 1; PStr (py "x")])); vm_compute; reflexivity.
Defined.

Lemma appended_rows_shape_witness :
  exists rows,
    process_document str_unused two_rows empty_sheets = (add_rows empty_sheets rows, None)
    /\ length rows = 2
    /\ Forall (fun row => length row = 34) rows.
Proof.
  destruct (appended_rows_shape str_unused two_rows empty_sheets
              [PDict [(py "성명", PStr (py "김철수")); (py "수입금액", PStr (py "1,000,000"))];
               PInt 7; PDict [(py "성명", PStr (py "김철수"))]])
    as (rows & H1 & H2 & H3 & _).
  - vm_compute. reflexivity.
  - vm_compute. discriminate.
  - reflexivity.
  - exists rows. split; [exact H1|]. split; [exact H2 | exact H3].
Defined.

(** C9, a row against the claim as stated: the record has no ["수입금액"],
    a currency field, and the cell of that column holds ["0"], not the
    sentinel. *)
Lemma absent_currency_cell_is_zero :
  exists row,
    worksheet (fst (main str_unused [] []
                      [sample_document (py "a.pdf") (js "[{'성명':'홍길동'}]") (Return tt)]))
    = [row]
    /\ dict_mem (py "수입금액") [(py "성명", PStr (py "홍길동"))] = false
    /\ nth_error EXTRACTION_FIELDS 27 = Some (py "수입금액")
    /\ nth_error row (2 + 27) = Some (CStr (py "0"))
    /\ nth_error row (2 + 27) <> Some (CStr NA).
Proof.
  eexists. split; [vm_compute; reflexivity|].
  repeat split; try (vm_compute; reflexivity). vm_compute. discriminate.
Qed.

Lemma appended_cells_typed_witness :
  exists rows,
    process_document str_unused two_rows empty_sheets = (add_rows empty_sheets rows, None)
    /\ exists name cells,
         nth_error rows 1 = Some (CStr name :: CInt 2 :: map CStr cells)
         /\ nth_error cells 27 = Some (py "0").
Proof.
  destruct (appended_cells_typed str_unused two_rows empty_sheets
              [PDict [(py "성명", PStr (py "김철수")); (py "수입금액", PStr (py "1,000,000"))];
               PInt 7; PDict [(py "성명", PStr (py "김철수"))]])
    as (rows & H1 & H2).
  - vm_compute. reflexivity.
  - vm_compute. discriminate.
  - reflexivity.
  - exists rows. split; [exact H1|].
    destruct (H2 1 [(py "성명", PStr (py "김철수"))] eq_refl) as (name & cells & R & L & C).
    exists name, cells. split; [exact R|].
    destruct (nth_error cells 27) as [cell|] eqn:E.
    + f_equal.
      assert (F : nth_error EXTRACTION_FIELDS 27 = Some (py "수입금액"))
        by (vm_compute; reflexivity).
      assert (M : str_in (py "수입금액") currency_fields = true)
        by (vm_compute; reflexivity).
      destruct (C 27 (py "수입금액") cell F E M) as (_ & _ & Z).
      apply Z. left. vm_compute. reflexivity.
    + apply nth_error_None in E. rewrite L in E. vm_compute in E. lia.
Defined.

(** C10, a row against the claim as stated: the second cell of a row is the
    row number, an integer and not a string. *)
Lemma row_number_cell_is_integer :
  exists row,
    worksheet (fst (main str_unused [] []
                      [sample_document (py "a.pdf") (js "[{'성명':'홍길동'}]") (Return tt)]))
    = [row]
    /\ nth_error row 1 = Some (CInt 1)
    /\ ~ exists s, nth_error row 1 = Some (CStr s).
Proof.
  eexists. split; [vm_compute; reflexivity|].
  split; [reflexivity|]. intros [s H]. discriminate H.
Qed.

(** * Further properties of the code *)

(** ** The retry loop, for any behaviour of the remote calls *)













(** ** The normaliser and the cleaner *)









(** ** The batch loop, for any behaviour of the sheets *)

Section DriverInvariants.

Variable str_other : pyval -> pystr.






End DriverInvariants.


(** ** The parser, pattern by pattern *)







(** ** A deletion that failed *)



(** ** The recursion budget of the decoder *)

(** Skipping white space never lengthens the text. *)
Lemma skip_ws_length (s : pystr) : length (skip_ws s) <= length s.
Proof.
  induction s as [|c s IH]; cbn [skip_ws length]; [lia|].
  destruct (json_space c); cbn [length]; lia.
Qed.

Lemma push_length (c : codepoint) (r : option (pystr * pystr)) (x rest : pystr) :
  push c r = Some (x, rest) -> exists x', r = Some (x', rest).
Proof.
  destruct r as [[x' rest']|]; cbn; [|discriminate].
  intros [= <- <-]. eexists. reflexivity.
Qed.

(** A string body that is read ends at its closing quote, which is consumed. *)
Lemma scanstring_length (n : nat) :
  forall s x rest, length s <= n -> scanstring s = Some (x, rest) -> length rest < length s.
Proof.
  induction n as [|n IH]; intros s x rest Hn.
  - destruct s; [discriminate | cbn in Hn; lia].
  - destruct s as [|c t]; [discriminate|]. cbn [scanstring].
    assert (K : forall u y, length u <= length t -> scanstring u = Some (y, rest) ->
                            length rest < length (c :: t)).
    { intros u y Hu Hy. apply IH in Hy; [cbn [length]; lia | cbn [length] in Hn; lia]. }
    destruct (c =? 34)%N; [intros [= <- <-]; cbn [length]; lia|].
    destruct (c =? 92)%N.
    + destruct t as [|e t1]; [discriminate|].
      destruct (e =? ch "u")%N.
      * destruct t1 as [|h1 [|h2 [|h3 [|h4 t2]]]]; try discriminate.
        destruct (hex4 h1 h2 h3 h4) as [u|]; [|discriminate].
        assert (K2 : forall w, push w (scanstring t2) = Some (x, rest) ->
                               length rest < length (c :: e :: h1 :: h2 :: h3 :: h4 :: t2)).
        { intros w Hw. apply push_length in Hw. destruct Hw as [y Hy].
          apply (K t2 y); [cbn [length]; lia | exact Hy]. }
        destruct (high_surrogate u); [|apply K2].
        destruct t2 as [|b [|e2 [|k1 [|k2 [|k3 [|k4 t3]]]]]]; try apply K2.
        destruct ((b =? 92) && (e2 =? ch "u"))%N; [|apply K2].
        destruct (hex4 k1 k2 k3 k4) as [u2|]; [|discriminate].
        destruct (low_surrogate u2); [|apply K2].
        intros Hw. apply push_length in Hw. destruct Hw as [y Hy].
        apply (K t3 y); [cbn [length]; lia | exact Hy].
      * destruct (unescape e); [|discriminate].
        intros Hw. apply push_length in Hw. destruct Hw as [y Hy].
        apply (K t1 y); [cbn [length]; lia | exact Hy].
    + destruct (c <? 32)%N; [discriminate|].
      intros Hw. apply push_length in Hw. destruct Hw as [y Hy].
      apply (K t y); [lia | exact Hy].
Qed.

Lemma take_digits_length (s : pystr) : length (snd (take_digits s)) <= length s.
Proof.
  induction s as [|c s IH]; cbn [take_digits]; [cbn; lia|].
  destruct (ascii_digit c); [|cbn; lia].
  destruct (take_digits s) as [ds r]. cbn [snd length] in *. lia.
Qed.

Lemma after_prefix_length (w s r : pystr) :
  after_prefix w s = Some r -> length s = length w + length r.
Proof.
  revert s. induction w as [|a w IH]; intros s; cbn [after_prefix].
  - intros [= ->]. reflexivity.
  - destruct s as [|b s]; [discriminate|]. destruct (a =? b)%N; [|discriminate].
    intros H. apply IH in H. cbn [length]. lia.
Qed.

Ltac break_match :=
  match goal with
  | |- context [take_digits ?x] =>
    let H := fresh "T" in
    pose proof (take_digits_length x) as H;
    destruct (take_digits x) as [? ?]; cbn [snd] in H
  | |- context [if ?x then _ else _] => destruct x
  | |- context [match ?x with _ => _ end] => is_var x; destruct x
  end.

(** A number has at least one digit. *)
Lemma match_number_length (s : pystr) (v : pyval) (r : pystr) :
  match_number s = Some (v, r) -> length r < length s.
Proof.
  unfold match_number.
  repeat (break_match; cbn [length fst snd app] in *; try discriminate);
    try (intros [= <- <-]; cbn [length] in *; lia).
Qed.

Lemma scan_atom_length (s : pystr) (v : pyval) (r : pystr) :
  scan_atom s = Parsed v r -> length r < length s.
Proof.
  unfold scan_atom.
  repeat match goal with
  | |- context [after_prefix ?w s] =>
    let E := fresh "E" in
    destruct (after_prefix w s) eqn:E;
    [apply after_prefix_length in E; vm_compute (length w) in E;
     intros [= <- <-]; lia | clear E]
  end.
  destruct (match_number s) as [[v' r']|] eqn:E; [|discriminate].
  intros [= <- <-]. exact (match_number_length s v' r' E).
Qed.

Lemma skip_ws_cons_length (s t : pystr) (c : codepoint) :
  skip_ws s = c :: t -> S (length t) <= length s.
Proof.
  intros H. pose proof (skip_ws_length s) as L. rewrite H in L. exact L.
Qed.

(** Every value that is read consumes at least one character. *)
Lemma scan_consumes (fuel : nat) :
  (forall s v rest, scan_once fuel s = Parsed v rest -> length rest < length s) /\
  (forall s acc v rest, parse_elements fuel s acc = Parsed v rest -> length rest < length s) /\
  (forall s acc v rest, parse_members fuel s acc = Parsed v rest -> length rest < length s).
Proof.
  induction fuel as [|fuel (IHs & IHe & IHm)];
    [repeat split; intros; discriminate|].
  repeat split.
  - intros s v rest. cbn [scan_once].
    destruct s as [|c t]; [discriminate|].
    destruct (c =? 34)%N.
    { destruct (scanstring t) as [[x r]|] eqn:E; [|discriminate].
      intros [= <- <-]. apply (scanstring_length (length t)) in E; cbn [length]; lia. }
    destruct (c =? ch "{")%N.
    { destruct (skip_ws t) as [|c' t'] eqn:E; [discriminate|].
      apply skip_ws_cons_length in E.
      destruct (c' =? ch "}")%N; [intros [= <- <-]; cbn [length]; lia|].
      intros H. apply IHm in H. cbn [length] in *. lia. }
    destruct (c =? ch "[")%N.
    { destruct (skip_ws t) as [|c' t'] eqn:E; [discriminate|].
      apply skip_ws_cons_length in E.
      destruct (c' =? ch "]")%N; [intros [= <- <-]; cbn [length]; lia|].
      intros H. apply IHe in H. cbn [length] in *. lia. }
    apply scan_atom_length.
  - intros s acc v rest. cbn [parse_elements].
    destruct (scan_once fuel s) as [v1 r1| |] eqn:E; try discriminate.
    apply IHs in E.
    destruct (skip_ws r1) as [|c t] eqn:W; [discriminate|].
    apply skip_ws_cons_length in W.
    destruct (c =? ch "]")%N; [intros [= <- <-]; lia|].
    destruct (c =? ch ",")%N; [|discriminate].
    intros H. apply IHe in H. pose proof (skip_ws_length t). lia.
  - intros s acc v rest. cbn [parse_members].
    destruct s as [|q t]; [discriminate|].
    destruct (q =? 34)%N; [|discriminate].
    destruct (scanstring t) as [[key r]|] eqn:K; [|discriminate].
    apply (scanstring_length (length t)) in K; [|lia].
    destruct (skip_ws r) as [|colon t1] eqn:W; [discriminate|].
    apply skip_ws_cons_length in W.
    destruct (colon =? ch ":")%N; [|discriminate].
    destruct (scan_once fuel (skip_ws t1)) as [v1 r1| |] eqn:E; try discriminate.
    apply IHs in E. pose proof (skip_ws_length t1).
    destruct (skip_ws r1) as [|c t2] eqn:W2; [discriminate|].
    apply skip_ws_cons_length in W2.
    destruct (c =? ch "}")%N; [intros [= <- <-]; cbn [length]; lia|].
    destruct (c =? ch ",")%N; [|discriminate].
    intros H1. apply IHm in H1. pose proof (skip_ws_length t2). cbn [length]. lia.
Qed.

Lemma scan_atom_decides (s : pystr) : scan_atom s <> Exhausted.
Proof.
  unfold scan_atom.
  repeat match goal with
  | |- context [after_prefix ?w s] => destruct (after_prefix w s); [discriminate|]
  end.
  destruct (match_number s) as [[v r]|]; discriminate.
Qed.

(** Two units of budget per character are enough: a value costs one unit to
    enter and one per item, and each item consumes a character. *)
Lemma scan_fuel (fuel : nat) :
  (forall s, 2 * length s < fuel -> scan_once fuel s <> Exhausted) /\
  (forall s acc, 2 * length s + 1 < fuel -> parse_elements fuel s acc <> Exhausted) /\
  (forall s acc, 2 * length s + 1 < fuel -> parse_members fuel s acc <> Exhausted).
Proof.
  induction fuel as [|fuel (IHs & IHe & IHm)];
    [repeat split; intros; lia|].
  repeat split.
  - intros s Hf. cbn [scan_once].
    destruct s as [|c t]; [discriminate|]. cbn [length] in Hf.
    destruct (c =? 34)%N.
    { destruct (scanstring t) as [[x r]|]; discriminate. }
    destruct (c =? ch "{")%N.
    { destruct (skip_ws t) as [|c' t'] eqn:E; [discriminate|].
      apply skip_ws_cons_length in E.
      destruct (c' =? ch "}")%N; [discriminate|].
      apply IHm. cbn [length]. lia. }
    destruct (c =? ch "[")%N.
    { destruct (skip_ws t) as [|c' t'] eqn:E; [discriminate|].
      apply skip_ws_cons_length in E.
      destruct (c' =? ch "]")%N; [discriminate|].
      apply IHe. cbn [length]. lia. }
    apply scan_atom_decides.
  - intros s acc Hf. cbn [parse_elements].
    pose proof (IHs s ltac:(lia)) as Hs.
    destruct (scan_once fuel s) as [v1 r1| |] eqn:E; [|discriminate|congruence].
    apply (proj1 (scan_consumes fuel)) in E.
    destruct (skip_ws r1) as [|c t] eqn:W; [discriminate|].
    apply skip_ws_cons_length in W.
    destruct (c =? ch "]")%N; [discriminate|].
    destruct (c =? ch ",")%N; [|discriminate].
    apply IHe. pose proof (skip_ws_length t). lia.
  - intros s acc Hf. cbn [parse_members].
    destruct s as [|q t]; [discriminate|]. cbn [length] in Hf.
    destruct (q =? 34)%N; [|discriminate].
    destruct (scanstring t) as [[key r]|] eqn:K; [|discriminate].
    apply (scanstring_length (length t)) in K; [|lia].
    destruct (skip_ws r) as [|colon t1] eqn:W; [discriminate|].
    apply skip_ws_cons_length in W.
    destruct (colon =? ch ":")%N; [|discriminate].
    pose proof (skip_ws_length t1).
    pose proof (IHs (skip_ws t1) ltac:(lia)) as Hs.
    destruct (scan_once fuel (skip_ws t1)) as [v1 r1| |] eqn:E; [|discriminate|congruence].
    apply (proj1 (scan_consumes fuel)) in E.
    destruct (skip_ws r1) as [|c t2] eqn:W2; [discriminate|].
    apply skip_ws_cons_length in W2.
    destruct (c =? ch "}")%N; [discriminate|].
    destruct (c =? ch ",")%N; [|discriminate].
    apply IHm. pose proof (skip_ws_length t2). lia.
Qed.

(** The budget [json_loads] gives the scanner is never used up: its [None] is
    always the [JSONDecodeError] of the decoder. *)
Lemma scan_once_total (s : pystr) :
  scan_once (S (2 * length s)) (skip_ws s) <> Exhausted.
Proof.
  apply (proj1 (scan_fuel _)). pose proof (skip_ws_length s). lia.
Qed.

(** A larger budget changes no result. *)
Lemma scan_once_fuel_irrelevant (fuel : nat) :
  (forall s r, scan_once fuel s = r -> r <> Exhausted ->
     forall fuel', fuel <= fuel' -> scan_once fuel' s = r) /\
  (forall s acc r, parse_elements fuel s acc = r -> r <> Exhausted ->
     forall fuel', fuel <= fuel' -> parse_elements fuel' s acc = r) /\
  (forall s acc r, parse_members fuel s acc = r -> r <> Exhausted ->
     forall fuel', fuel <= fuel' -> parse_members fuel' s acc = r).
Proof.
  induction fuel as [|fuel (IHs & IHe & IHm)].
  { repeat split; intros; subst; cbn in *; congruence. }
  repeat split.
  - intros s r <- Hr [|f'] Hle; [lia|]. revert Hr. cbn [scan_once].
    destruct s as [|c t]; [reflexivity|].
    destruct (c =? 34)%N; [reflexivity|].
    destruct (c =? ch "{")%N.
    { destruct (skip_ws t) as [|c' t']; [reflexivity|].
      destruct (c' =? ch "}")%N; [reflexivity|].
      intros Hr. apply (IHm _ _ _ eq_refl Hr). lia. }
    destruct (c =? ch "[")%N.
    { destruct (skip_ws t) as [|c' t']; [reflexivity|].
      destruct (c' =? ch "]")%N; [reflexivity|].
      intros Hr. apply (IHe _ _ _ eq_refl Hr). lia. }
    reflexivity.
  - intros s acc r <- Hr [|f'] Hle; [lia|]. revert Hr. cbn [parse_elements].
    destruct (scan_once fuel s) as [v1 r1| |] eqn:E; [| |congruence].
    + rewrite (IHs _ _ E ltac:(discriminate) f' ltac:(lia)).
      destruct (skip_ws r1) as [|c t]; [reflexivity|].
      destruct (c =? ch "]")%N; [reflexivity|].
      destruct (c =? ch ",")%N; [|reflexivity].
      intros Hr. apply (IHe _ _ _ eq_refl Hr). lia.
    + rewrite (IHs _ _ E ltac:(discriminate) f' ltac:(lia)). reflexivity.
  - intros s acc r <- Hr [|f'] Hle; [lia|]. revert Hr. cbn [parse_members].
    destruct s as [|q t]; [reflexivity|].
    destruct (q =? 34)%N; [|reflexivity].
    destruct (scanstring t) as [[key r]|]; [|reflexivity].
    destruct (skip_ws r) as [|colon t1]; [reflexivity|].
    destruct (colon =? ch ":")%N; [|reflexivity].
    destruct (scan_once fuel (skip_ws t1)) as [v1 r1| |] eqn:E; [| |congruence].
    + rewrite (IHs _ _ E ltac:(discriminate) f' ltac:(lia)).
      destruct (skip_ws r1) as [|c t2]; [reflexivity|].
      destruct (c =? ch "}")%N; [reflexivity|].
      destruct (c =? ch ",")%N; [|reflexivity].
      intros Hr. apply (IHm _ _ _ eq_refl Hr). lia.
    + rewrite (IHs _ _ E ltac:(discriminate) f' ltac:(lia)). reflexivity.
Qed.
